(** * dendrite: the /sync long-poll request pool and the federation join handshake

    A shallow embedding of
    [src/github.com/matrix-org/dendrite/syncapi/sync/requestpool.go]
    (package [sync]: [OnIncomingSyncRequest], [currentSyncForUser],
    [appendAccountData]) and of the federation join handlers that follow it
    in the same source file (package [routing]: [MakeJoin], [SendJoin]).

    Go values are modelled as follows.
    - [(v, err)] results are [result]: [Ok v] or [Err e].
    - [map[string]T] is [gmap string T]; a map that the code only ranges over
      is the list of its entries in the order the runtime visits them.
    - External collaborators (stores, key ring, roomserver, producer) are
      records of functions; the calls the handlers make to the outside world
      are recorded, in order, in a trace.
    - Blocking on [select] is driven by a list of the cases the runtime
      picks, one per pass through the loop. *)

From stdpp Require Import gmap strings list fin_maps.
From Stdlib Require Import ZArith Ascii.

Local Open Scope Z_scope.

(** ** Go results and HTTP responses *)

(** Go's [error] values.  [ErrRoomNoExists] is the sentinel that
    [common.BuildEvent] returns and [MakeJoin] compares against. *)
Inductive error : Type :=
| ErrRoomNoExists
| errors_New (msg : string).

Inductive result (A : Type) : Type :=
| Ok (a : A)
| Err (e : error).
Arguments Ok {A} a.
Arguments Err {A} e.

(** Go's [if err != nil { return nil, err }] chains, through stdpp's monad
    notation [x ← r; k]. *)
#[global] Instance result_ret : MRet result := λ A a, Ok a.
#[global] Instance result_bind : MBind result := λ A B k r,
  match r with
  | Ok a => k a
  | Err e => Err e
  end.

(** The error bodies of package [jsonerror], by constructor name. *)
Inductive MatrixError : Type :=
| Unknown (msg : string)
| BadJSON (msg : string)
| NotJSON (msg : string)
| Forbidden (msg : string)
| NotFound (msg : string)
| InternalServerError.

(** [util.JSONResponse]: a status code and a body, which is either a
    [jsonerror] value or the handler's payload. *)
Inductive JSONBody (A : Type) : Type :=
| json_error (e : MatrixError)
| json_value (a : A).
Arguments json_error {A} e.
Arguments json_value {A} a.

Record JSONResponse (A : Type) : Type := mkJSONResponse {
  Code : Z;
  JSON : JSONBody A
}.
Arguments mkJSONResponse {A} Code JSON.
Arguments Code {A} j.
Arguments JSON {A} j.

(** Modelled from the spec: [httputil.LogThenError] lives in
    [clientapi/httputil], outside the source at hand.  Section 7: an upstream
    or storage failure, and a cancellation, are "surfaced as a server error
    after logging"; section 6: "error status on request-cancellation or
    upstream failure".  The logged error does not reach the response. *)
Definition LogThenError {A : Type} (err : error) : JSONResponse A :=
  {| Code := 500; JSON := json_error InternalServerError |}.

(** What a handler has done so far: the calls it made, and the response it
    returned, if it has returned. *)
Record Run (E R : Type) : Type := mkRun {
  trace : list E;
  outcome : option R
}.
Arguments mkRun {E R} trace outcome.
Arguments trace {E R} r.
Arguments outcome {E R} r.

(** ** Package [types]: stream positions and sync responses *)

Module types.

Definition StreamPosition : Type := Z.

Section Response.
Context {ClientEvent : Type}.

(** Modelled from the spec: [types.JoinResponse] is declared in
    [syncapi/types], outside the source at hand.  Section 6: the joined-room
    deltas are "timeline events, state deltas, account data". *)
Record JoinResponse : Type := mkJoinResponse {
  State_Events : list ClientEvent;
  Timeline_Events : list ClientEvent;
  AccountData_Events : list ClientEvent
}.

(** Go's zero value of [JoinResponse]: what [m[k]] yields for an absent key. *)
Definition zeroJoinResponse : JoinResponse :=
  {| State_Events := []; Timeline_Events := []; AccountData_Events := [] |}.

Definition setJoinAccountData (jr : JoinResponse) (events : list ClientEvent)
  : JoinResponse :=
  {| State_Events := State_Events jr;
     Timeline_Events := Timeline_Events jr;
     AccountData_Events := events |}.

(** Modelled from the spec: [types.Response] is declared in [syncapi/types],
    outside the source at hand.  Section 3: it holds "per-room event deltas,
    account-data deltas, and the since token the client should present on its
    next call"; room sections are joined rooms and membership changes
    (invites, leaves). *)
Record Response : Type := mkResponse {
  NextBatch : StreamPosition;
  AccountData : list ClientEvent;
  Rooms_Join : gmap string JoinResponse;
  Rooms_Invite : gmap string (list ClientEvent);
  Rooms_Leave : gmap string (list ClientEvent)
}.

Definition setAccountData (data : Response) (events : list ClientEvent)
  : Response :=
  {| NextBatch := NextBatch data;
     AccountData := events;
     Rooms_Join := Rooms_Join data;
     Rooms_Invite := Rooms_Invite data;
     Rooms_Leave := Rooms_Leave data |}.

Definition setRoomsJoin (data : Response) (join : gmap string JoinResponse)
  : Response :=
  {| NextBatch := NextBatch data;
     AccountData := AccountData data;
     Rooms_Join := join;
     Rooms_Invite := Rooms_Invite data;
     Rooms_Leave := Rooms_Leave data |}.

(** Modelled from the spec: [types.NewResponse] is outside the source at
    hand.  Section 4.2: the response is "structurally empty except for
    carrying the original since token unchanged". *)
Definition NewResponse (pos : StreamPosition) : Response :=
  {| NextBatch := pos;
     AccountData := [];
     Rooms_Join := ∅;
     Rooms_Invite := ∅;
     Rooms_Leave := ∅ |}.

(** Modelled from the spec: [Response.IsEmpty] is outside the source at
    hand.  Section 3: "a response is empty iff it contains no room events, no
    membership changes, and no account-data changes". *)
Definition IsEmpty (r : Response) : bool :=
  bool_decide (size (Rooms_Join r) = 0%nat)
  && bool_decide (size (Rooms_Invite r) = 0%nat)
  && bool_decide (size (Rooms_Leave r) = 0%nat)
  && bool_decide (length (AccountData r) = 0%nat).

End Response.

Arguments JoinResponse ClientEvent : clear implicits.
Arguments Response ClientEvent : clear implicits.

End types.

(** [err.Error()]. *)
Definition Error (e : error) : string :=
  match e with
  | ErrRoomNoExists => "Room does not exist"
  | errors_New msg => msg
  end.

(** ** The stream notifier *)

Module notifier.
Import types.

(** Modelled from the spec: the notifier and its listeners (notifier.go,
    userstream.go) are outside the source at hand.  Section 3: a listener
    owns "a wake channel, and the last position it was woken at".
    [waiting] is the [sinceKnown] of the [Wait] that is outstanding and
    [yielded] counts the values its channel has yielded. *)
Record Listener : Type := mkListener {
  waiting : option StreamPosition;
  yielded : nat;
  position : StreamPosition
}.

(** Modelled from the spec: section 5, "the only shared, mutually-mutated
    state is the global stream position and the per-user listener
    registry".  Listeners are keyed by the request that holds them. *)
Record Notifier : Type := mkNotifier {
  currentPosition : StreamPosition;
  registry : gmap nat Listener
}.

Definition newNotifier (pos : StreamPosition) : Notifier :=
  {| currentPosition := pos; registry := ∅ |}.

(** The atomic steps of section 4.1, each taken under the notifier's one
    synchronization discipline. *)
Inductive Action : Type :=
| Subscribe (l : nat)
| Wait (l : nat) (sinceKnown : StreamPosition)
| Advance (pos : StreamPosition)
| Release (l : nat).

(** Modelled from the spec: section 4.1, an advance "broadcasts to all
    listeners for affected users (or, conservatively, all listeners)"; the
    model takes the conservative reading, under which the contract of
    [Wait] is the one the spec words over the global position: the channel
    yields "exactly once when the global position has advanced past
    sinceKnown". *)
Definition wake (pos : StreamPosition) (lst : Listener) : Listener :=
  match waiting lst with
  | Some sinceKnown =>
      if bool_decide (sinceKnown < pos) && bool_decide (yielded lst = 0%nat)
      then {| waiting := waiting lst; yielded := 1; position := pos |}
      else lst
  | None => lst
  end.

(** Modelled from the spec: section 4.1.  [Subscribe] "registers interest";
    [Wait] yields "immediately if it already has" advanced, checking the
    current position "under the same lock/atomic step that registers the
    waiter"; "a single global position counter advances whenever new data
    is committed" (positions are strictly increasing, section 3) and "every
    advance broadcasts"; [Release] "removes the listener" and is idempotent. *)
Definition step (n : Notifier) (a : Action) : Notifier :=
  match a with
  | Subscribe l =>
      {| currentPosition := currentPosition n;
         registry := <[l := {| waiting := None; yielded := 0;
                               position := currentPosition n |}]> (registry n) |}
  | Wait l sinceKnown =>
      match registry n !! l with
      | Some lst =>
          {| currentPosition := currentPosition n;
             registry :=
               <[l := if bool_decide (sinceKnown < currentPosition n)
                      then {| waiting := Some sinceKnown; yielded := 1;
                              position := currentPosition n |}
                      else {| waiting := Some sinceKnown; yielded := 0;
                              position := position lst |}]> (registry n) |}
      | None => n
      end
  | Advance pos =>
      if bool_decide (currentPosition n < pos) then
        {| currentPosition := pos; registry := wake pos <$> registry n |}
      else n
  | Release l =>
      {| currentPosition := currentPosition n; registry := delete l (registry n) |}
  end.

(** An interleaving is the list of the steps in the order they took the
    lock. *)
Definition run (n : Notifier) (actions : list Action) : Notifier :=
  foldl step n actions.

(** Steps that are not the doing of the request holding listener [l]:
    advances, and the steps of other requests on their own listeners. *)
Definition foreign (l : nat) (a : Action) : bool :=
  match a with
  | Advance _ => true
  | Subscribe l' | Wait l' _ | Release l' => bool_decide (l' ≠ l)
  end.

(** Every outstanding wait has yielded once if the position is past its
    [sinceKnown], and not at all otherwise. *)
Definition woken_iff_past (n : Notifier) : Prop :=
  ∀ l lst sinceKnown,
    registry n !! l = Some lst →
    waiting lst = Some sinceKnown →
    yielded lst = if bool_decide (sinceKnown < currentPosition n) then 1%nat else 0%nat.

Lemma woken_iff_past_new pos : woken_iff_past (newNotifier pos).
Proof. intros l lst sinceKnown Hl. simpl in Hl. by rewrite lookup_empty in Hl. Qed.

Lemma woken_iff_past_step n a :
  woken_iff_past n → woken_iff_past (step n a).
Proof.
  intros Hinv l lst sinceKnown. destruct a as [l'|l' since'|pos|l']; simpl.
  - destruct (decide (l' = l)) as [->|Hne].
    + rewrite lookup_insert_eq. by intros [= <-].
    + rewrite lookup_insert_ne; [|done]. apply Hinv.
  - destruct (registry n !! l') as [lst'|] eqn:Hl'; [|apply Hinv]. simpl.
    destruct (decide (l' = l)) as [->|Hne].
    + rewrite lookup_insert_eq. intros [= <-].
      case_bool_decide; simpl; intros [= <-].
      * by rewrite bool_decide_eq_true_2.
      * by rewrite bool_decide_eq_false_2.
    + rewrite lookup_insert_ne; [|done]. apply Hinv.
  - case_bool_decide as Hadv; [|apply Hinv]. simpl.
    rewrite lookup_fmap. destruct (registry n !! l) as [lst0|] eqn:Hl; [|done].
    simpl. intros [= <-]. unfold wake.
    destruct (waiting lst0) as [since0|] eqn:Hw; [|by rewrite Hw].
    pose proof (Hinv l lst0 since0 Hl Hw) as Hy.
    repeat case_bool_decide; simpl; rewrite ?Hw; intros [= <-];
      repeat case_bool_decide; try done; try lia.
  - destruct (decide (l' = l)) as [->|Hne].
    + by rewrite lookup_delete_eq.
    + rewrite lookup_delete_ne; [|done]. apply Hinv.
Qed.

Lemma run_cons n a actions : run n (a :: actions) = run (step n a) actions.
Proof. done. Qed.

Lemma run_app n actions1 actions2 :
  run n (actions1 ++ actions2) = run (run n actions1) actions2.
Proof. apply foldl_app. Qed.

Lemma woken_iff_past_run n actions :
  woken_iff_past n → woken_iff_past (run n actions).
Proof.
  revert n. induction actions as [|a actions IH]; intros n Hinv; [done|].
  simpl. apply IH. by apply woken_iff_past_step.
Qed.

(** What others do leaves a request's outstanding wait in place. *)
Lemma foreign_step_keeps_wait l sinceKnown n a :
  foreign l a = true →
  (∃ lst, registry n !! l = Some lst ∧ waiting lst = Some sinceKnown) →
  ∃ lst, registry (step n a) !! l = Some lst ∧ waiting lst = Some sinceKnown.
Proof.
  intros Hforeign (lst & Hl & Hw).
  destruct a as [l'|l' since'|pos|l']; simpl in *;
    try apply bool_decide_eq_true_1 in Hforeign.
  - rewrite lookup_insert_ne; [|done]. by exists lst.
  - destruct (registry n !! l') as [lst'|]; simpl.
    + rewrite lookup_insert_ne; [|done]. by exists lst.
    + by exists lst.
  - case_bool_decide; simpl; [|by exists lst].
    rewrite lookup_fmap, Hl. simpl. exists (wake pos lst). split; [done|].
    unfold wake. rewrite Hw. by case_match.
  - rewrite lookup_delete_ne; [|done]. by exists lst.
Qed.

Lemma foreign_run_keeps_wait l sinceKnown n actions :
  forallb (foreign l) actions = true →
  (∃ lst, registry n !! l = Some lst ∧ waiting lst = Some sinceKnown) →
  ∃ lst, registry (run n actions) !! l = Some lst ∧ waiting lst = Some sinceKnown.
Proof.
  revert n. induction actions as [|a actions IH]; intros n Hall Hn; [done|].
  simpl in *. apply andb_true_iff in Hall as [Ha Hall].
  apply IH; [done|]. by apply foreign_step_keeps_wait.
Qed.

(** What others do leaves a request's listener registered. *)
Lemma foreign_run_keeps_listener l n actions :
  forallb (foreign l) actions = true →
  is_Some (registry n !! l) →
  is_Some (registry (run n actions) !! l).
Proof.
  revert n. induction actions as [|a actions IH]; intros n Hall Hn; [done|].
  simpl in *. apply andb_true_iff in Hall as [Ha Hall].
  apply IH; [done|]. destruct Hn as [lst Hl].
  destruct a as [l'|l' since'|pos|l']; simpl in *;
    try apply bool_decide_eq_true_1 in Ha.
  - by rewrite lookup_insert_ne.
  - destruct (registry n !! l') as [lst'|]; simpl; [|by rewrite Hl].
    rewrite lookup_insert_ne; [|done]. by rewrite Hl.
  - case_bool_decide; simpl; [|by rewrite Hl]. by rewrite lookup_fmap, Hl.
  - rewrite lookup_delete_ne; [|done]. by rewrite Hl.
Qed.

(** C2.  Take any interleaving in which a request subscribes listener [l]
    and then waits on it with [sinceKnown], with any steps whatever before
    the subscription and any advances and steps of other requests between
    the subscription and the wait and after the wait.  At the end the
    listener is registered with that wait outstanding, and its channel has
    yielded exactly once if the global position is past [sinceKnown] and
    not at all otherwise.  In particular ([after] empty) the channel has
    yielded as soon as [Wait] returns when the position was already past
    [sinceKnown], advances made before the subscription completed
    included. *)
Theorem no_missed_wakeup p0 before between after l sinceKnown :
  forallb (foreign l) between = true →
  forallb (foreign l) after = true →
  ∃ lst,
    registry (run (newNotifier p0)
                (before ++ Subscribe l :: between ++ Wait l sinceKnown :: after))
      !! l = Some lst
    ∧ waiting lst = Some sinceKnown
    ∧ yielded lst
      = if bool_decide
             (sinceKnown
              < currentPosition
                  (run (newNotifier p0)
                     (before ++ Subscribe l :: between
                        ++ Wait l sinceKnown :: after)))
        then 1%nat else 0%nat.
Proof.
  intros Hbetween Hafter.
  set (n := run (newNotifier p0)
              (before ++ Subscribe l :: between ++ Wait l sinceKnown :: after)).
  assert (woken_iff_past n) as Hinv
    by apply woken_iff_past_run, woken_iff_past_new.
  assert (∃ lst, registry n !! l = Some lst ∧ waiting lst = Some sinceKnown)
    as (lst & Hl & Hw).
  { subst n. rewrite run_app, run_cons, run_app, run_cons.
    apply foreign_run_keeps_wait; [done|].
    destruct (foreign_run_keeps_listener l
                (step (run (newNotifier p0) before) (Subscribe l))
                between Hbetween) as [lst1 Hl1].
    { simpl. rewrite lookup_insert_eq. by eexists. }
    unfold step at 1. rewrite Hl1. simpl. rewrite lookup_insert_eq.
    eexists. split; [done|]. by case_bool_decide. }
  exists lst. split_and!; [done | done |]. by apply (Hinv l).
Qed.

(** An advance that lands between the subscription and the wait. *)
Lemma no_missed_wakeup_witness :
  ∃ lst,
    registry (run (newNotifier 100)
                ([Advance 101] ++ Subscribe 7 :: [Advance 102; Subscribe 8]
                   ++ Wait 7 101 :: [Wait 8 102; Release 8]))
      !! 7%nat = Some lst
    ∧ waiting lst = Some 101
    ∧ yielded lst
      = if bool_decide
             (101
              < currentPosition
                  (run (newNotifier 100)
                     ([Advance 101] ++ Subscribe 7 :: [Advance 102; Subscribe 8]
                        ++ Wait 7 101 :: [Wait 8 102; Release 8])))
        then 1%nat else 0%nat.
Proof.
  apply (no_missed_wakeup 100 [Advance 101] [Advance 102; Subscribe 8]
           [Wait 8 102; Release 8] 7%nat 101).
  - reflexivity.
  - reflexivity.
Defined.

(** The same interleaving, run: listener 7 was woken at once, at 102. *)
Example advance_before_wait_wakes_at_once :
  registry (run (newNotifier 100)
              [Advance 101; Subscribe 7; Advance 102; Wait 7 101]) !! 7%nat
  = Some {| waiting := Some 101; yielded := 1; position := 102 |}.
Proof. by vm_compute. Qed.

End notifier.

(** ** The library's identifier parser *)

Module gomatrixserverlib.

(** [strings.SplitN(id, ":", 2)]: the text before and after the first colon. *)
Fixpoint splitFirstColon (s : string) : option (string * string) :=
  match s with
  | EmptyString => None
  | String c rest =>
      if Ascii.eqb c ":"%char then Some (EmptyString, rest)
      else match splitFirstColon rest with
           | Some (l, d) => Some (String c l, d)
           | None => None
           end
  end.

(** [SplitID(sigil, id)] of gomatrixserverlib: an ID reads SIGIL LOCALPART
    ":" DOMAIN and is split on its first colon.  The handlers take the
    parser as a parameter; this one runs them on concrete requests. *)
Definition SplitID (sigil : ascii) (id : string) : result (string * string) :=
  match id with
  | EmptyString => Err (errors_New "invalid ID: doesn't start with sigil")
  | String c rest =>
      if Ascii.eqb c sigil then
        match splitFirstColon rest with
        | Some (local, domain) => Ok (local, domain)
        | None => Err (errors_New "invalid ID: missing ':'")
        end
      else Err (errors_New "invalid ID: doesn't start with sigil")
  end.

End gomatrixserverlib.

(** ** Package [sync]: requestpool.go *)

Module sync.
Import types.

(** [syncRequest] is built by [newSyncRequest] (request.go); the fields
    are the ones requestpool.go reads.  [timeout] is a [time.Duration]. *)
Record syncRequest : Type := mkSyncRequest {
  userID : string;
  limit : Z;
  timeout : Z;
  since : StreamPosition
}.

(** [authtypes.Device], of which the handler reads [UserID]. *)
Record Device : Type := mkDevice {
  UserID : string
}.

(** What [OnIncomingSyncRequest] does to the notifier and the timer. *)
Inductive Effect : Type :=
| NewTimer (d : Z)
| TimerStop
| GetListener (req : syncRequest)
| ListenerClose
| GetNotifyChannel (pos : StreamPosition).

#[global] Instance syncRequest_eq_dec : EqDecision syncRequest.
Proof. solve_decision. Defined.
#[global] Instance Effect_eq_dec : EqDecision Effect.
Proof. solve_decision. Defined.

Definition isNewTimer (e : Effect) : bool :=
  match e with NewTimer _ => true | _ => false end.
Definition isGetListener (e : Effect) : bool :=
  match e with GetListener _ => true | _ => false end.
Definition isListenerClose (e : Effect) : bool :=
  match e with ListenerClose => true | _ => false end.
Definition isGetNotifyChannel (e : Effect) : bool :=
  match e with GetNotifyChannel _ => true | _ => false end.

(** How many effects of a kind a trace holds. *)
Definition count (kind : Effect → bool) (tr : list Effect) : nat :=
  length (List.filter kind tr).

Arguments count : simpl never.

Section RequestPool.
Context {ClientEvent : Type}.

(** [storage.SyncServerDatabase], through the queries requestpool.go makes
    for /sync.  [GetAccountDataInRange] returns a [map[string][]string] that
    the caller only ranges over: the list holds its entries in the order
    the runtime visits them. *)
Record SyncServerDatabase : Type := mkSyncServerDatabase {
  CompleteSync : string → Z → result (Response ClientEvent);
  IncrementalSync :
    string → StreamPosition → StreamPosition → Z → result (Response ClientEvent);
  GetAccountDataInRange :
    string → StreamPosition → StreamPosition → result (list (string * list string))
}.

(** [accounts.Database], through its two account-data queries. *)
Record AccountsDatabase : Type := mkAccountsDatabase {
  GetAccountData :
    string → result (list ClientEvent * gmap string (list ClientEvent));
  GetAccountDataByType : string → string → string → result (list ClientEvent)
}.

(** [RequestPool]: the two stores.  The third field, the notifier, is an
    object the handler talks to; its answers come in through [currPos] and
    the [SelectCase]s below. *)
Record RequestPool : Type := mkRequestPool {
  db : SyncServerDatabase;
  accountDB : AccountsDatabase
}.

(** One pass through [select]: the case the runtime picked.
    [Notified pos rp'] is a receive on the listener's channel, after which
    [GetStreamPosition()] answers [pos] and the stores read as [rp']
    (they are shared and may have moved on since the request arrived). *)
Inductive SelectCase : Type :=
| Notified (pos : StreamPosition) (rp' : RequestPool)
| TimerC
| ContextDone (err : error).

Context {http_Request : Type}.
(** [newSyncRequest] (request.go, outside the source at hand) parses the
    query parameters; [gomatrixserverlib.SplitID] is the library's parser of
    [@localpart:domain]. *)
Context (newSyncRequest : http_Request → string → result syncRequest).
Context (SplitID : Ascii.ascii → string → result (string * string)).

(** Lines 277-285: fetch every changed type of one room, appending to
    [events]. *)
Fixpoint fetchDataTypes (adb : AccountsDatabase) (localpart roomID : string)
    (dataTypes : list string) (events : list ClientEvent)
  : result (list ClientEvent) :=
  match dataTypes with
  | [] => Ok events
  | dataType :: rest =>
      evs ← GetAccountDataByType adb localpart roomID dataType;
      fetchDataTypes adb localpart roomID rest (events ++ evs)
  end.

(** Lines 287-294: attach one room's events to the response. *)
Definition attachAccountData (data : Response ClientEvent) (roomID : string)
    (events : list ClientEvent) : Response ClientEvent :=
  if bool_decide (0 < String.length roomID)%nat then
    let jr := default zeroJoinResponse (Rooms_Join data !! roomID) in
    setRoomsJoin data (<[roomID := setJoinAccountData jr events]> (Rooms_Join data))
  else
    setAccountData data events.

(** Lines 273-295: the loop over the rooms. *)
Fixpoint appendRooms (adb : AccountsDatabase) (localpart : string)
    (dataTypes : list (string * list string)) (data : Response ClientEvent)
  : result (Response ClientEvent) :=
  match dataTypes with
  | [] => Ok data
  | (roomID, dts) :: rest =>
      events ← fetchDataTypes adb localpart roomID dts [];
      appendRooms adb localpart rest (attachAccountData data roomID events)
  end.

(** Lines 253-258: on an initial sync every joined room that has account
    data gets it; the others are left as they are. *)
Definition attachAllRooms (rooms : gmap string (list ClientEvent))
    (join : gmap string (JoinResponse ClientEvent))
  : gmap string (JoinResponse ClientEvent) :=
  map_imap (λ r j,
    Some (if bool_decide (0 < length (default [] (rooms !! r)))%nat
          then setJoinAccountData j (default [] (rooms !! r))
          else j)) join.

Definition appendAccountData (rp : RequestPool) (data : Response ClientEvent)
    (userID : string) (req : syncRequest) (currentPos : StreamPosition)
  : result (Response ClientEvent) :=
  '(localpart, _) ← SplitID "@"%char userID;
  if bool_decide (since req = 0) then
    '(global, rooms) ← GetAccountData (accountDB rp) localpart;
    let data := setAccountData data global in
    Ok (setRoomsJoin data (attachAllRooms rooms (Rooms_Join data)))
  else
    dataTypes ← GetAccountDataInRange (db rp) userID (since req) currentPos;
    if bool_decide (length dataTypes = 0%nat) then Ok data
    else appendRooms (accountDB rp) localpart dataTypes data.

Definition currentSyncForUser (rp : RequestPool) (req : syncRequest)
    (currentPos : StreamPosition) : result (Response ClientEvent) :=
  res ← (if bool_decide (since req = 0)
         then CompleteSync (db rp) (userID req) (limit req)
         else IncrementalSync (db rp) (userID req) (since req) currentPos (limit req));
  appendAccountData rp res (userID req) req currentPos.

Definition respond (code : Z) (syncData : Response ClientEvent)
  : JSONResponse (Response ClientEvent) :=
  {| Code := code; JSON := json_value syncData |}.

(** Lines 88-120: the [for { select { ... } ... }] loop.  Every pass asks
    the listener for its channel at [currPos] and blocks; [cases] lists what
    the runtime picks, pass after pass.  When the list runs out the request
    is still blocked in [select]: the outcome is [None]. *)
Fixpoint waitLoop (syncReq : syncRequest) (currPos : StreamPosition)
    (cases : list SelectCase)
  : Run Effect (JSONResponse (Response ClientEvent)) :=
  match cases with
  | [] => mkRun [GetNotifyChannel currPos] None
  | Notified pos rp' :: rest =>
      match currentSyncForUser rp' syncReq pos with
      | Err err => mkRun [GetNotifyChannel currPos] (Some (LogThenError err))
      | Ok syncData =>
          if negb (IsEmpty syncData) then
            mkRun [GetNotifyChannel currPos] (Some (respond 200 syncData))
          else
            let r := waitLoop syncReq pos rest in
            mkRun (GetNotifyChannel currPos :: trace r) (outcome r)
      end
  | TimerC :: _ =>
      mkRun [GetNotifyChannel currPos]
            (Some (respond 200 (NewResponse (since syncReq))))
  | ContextDone err :: _ =>
      mkRun [GetNotifyChannel currPos] (Some (LogThenError err))
  end.

(** Go runs deferred calls when the function returns, last deferred first:
    [userStreamListener.Close()], then [timer.Stop()]. *)
Definition deferred {R : Type} (r : Run Effect R) : Run Effect R :=
  match outcome r with
  | Some _ => mkRun (trace r ++ [ListenerClose; TimerStop]) (outcome r)
  | None => r
  end.

(** [rp] holds the stores as they read when the request arrives and
    [currPos] is what [rp.notifier.CurrentPosition()] answers then. *)
Definition OnIncomingSyncRequest (rp : RequestPool) (req : http_Request)
    (device : Device) (currPos : StreamPosition) (cases : list SelectCase)
  : Run Effect (JSONResponse (Response ClientEvent)) :=
  match newSyncRequest req (UserID device) with
  | Err err =>
      mkRun [] (Some {| Code := 400; JSON := json_error (Unknown (Error err)) |})
  | Ok syncReq =>
      if bool_decide (since syncReq = 0) || bool_decide (timeout syncReq = 0) then
        match currentSyncForUser rp syncReq currPos with
        | Err err => mkRun [] (Some (LogThenError err))
        | Ok syncData => mkRun [] (Some (respond 200 syncData))
        end
      else
        let r := deferred (waitLoop syncReq currPos cases) in
        mkRun (NewTimer (timeout syncReq) :: GetListener syncReq :: trace r)
              (outcome r)
  end.

(** *** What the account-data merge attaches *)

(** The value the accounts store currently holds for one type ([nil] when
    the query fails). *)
Definition currentValue (adb : AccountsDatabase) (localpart roomID dataType : string)
  : list ClientEvent :=
  match GetAccountDataByType adb localpart roomID dataType with
  | Ok evs => evs
  | Err _ => []
  end.

Definition currentValues (adb : AccountsDatabase) (localpart roomID : string)
    (dataTypes : list string) : list ClientEvent :=
  flat_map (currentValue adb localpart roomID) dataTypes.

(** The accounts store answers every query the merge makes for [dataTypes]. *)
Definition answersb (adb : AccountsDatabase) (localpart : string)
    (dataTypes : list (string * list string)) : bool :=
  forallb (λ '(roomID, dts),
    forallb (λ dt,
      match GetAccountDataByType adb localpart roomID dt with
      | Ok _ => true
      | Err _ => false
      end) dts) dataTypes.

(** The account-data events a response carries for [roomID]; the empty
    room ID stands for the global section. *)
Definition accountDataOf (data : Response ClientEvent) (roomID : string)
  : list ClientEvent :=
  if bool_decide (roomID = "") then AccountData data
  else AccountData_Events (default zeroJoinResponse (Rooms_Join data !! roomID)).

Lemma length_pos_nonempty (s : string) : (0 < String.length s)%nat ↔ s ≠ "".
Proof. destruct s; simpl; split; intros; try done; lia. Qed.

Lemma fetchDataTypes_ok adb localpart roomID dts events :
  forallb (λ dt, match GetAccountDataByType adb localpart roomID dt with
                 | Ok _ => true | Err _ => false end) dts = true →
  fetchDataTypes adb localpart roomID dts events
  = Ok (events ++ currentValues adb localpart roomID dts).
Proof.
  revert events. induction dts as [|dt dts IH]; intros events Hall; simpl.
  - by rewrite app_nil_r.
  - simpl in Hall. apply andb_true_iff in Hall as [Hdt Hall].
    unfold currentValues, currentValue in *. simpl.
    destruct (GetAccountDataByType adb localpart roomID dt) as [evs|] eqn:E;
      [|done].
    simpl. rewrite (IH _ Hall). by rewrite <- app_assoc.
Qed.

Lemma fetchDataTypes_err adb localpart roomID dts events :
  forallb (λ dt, match GetAccountDataByType adb localpart roomID dt with
                 | Ok _ => true | Err _ => false end) dts = false →
  ∃ err, fetchDataTypes adb localpart roomID dts events = Err err.
Proof.
  revert events. induction dts as [|dt dts IH]; intros events Hall; simpl in *.
  - done.
  - destruct (GetAccountDataByType adb localpart roomID dt) as [evs|err] eqn:E.
    + simpl in *. by apply IH.
    + by exists err.
Qed.

Lemma attachAccountData_room data roomID events :
  roomID ≠ "" →
  attachAccountData data roomID events
  = setRoomsJoin data
      (<[roomID := setJoinAccountData
                     (default zeroJoinResponse (Rooms_Join data !! roomID)) events]>
         (Rooms_Join data)).
Proof.
  intros Hne. unfold attachAccountData.
  rewrite bool_decide_eq_true_2; [done|]. by apply length_pos_nonempty.
Qed.

Lemma attachAccountData_global data events :
  attachAccountData data "" events = setAccountData data events.
Proof. done. Qed.

(** The loop over the rooms, when the store answers: every room listed gets
    exactly the current values of its types, on top of what the entry held
    before (or of a zero entry); everything else is as it was. *)
Lemma appendRooms_ok adb localpart dataTypes data :
  NoDup dataTypes.*1 →
  answersb adb localpart dataTypes = true →
  ∃ data',
    appendRooms adb localpart dataTypes data = Ok data'
    ∧ (∀ roomID dts, (roomID, dts) ∈ dataTypes → roomID ≠ "" →
         Rooms_Join data' !! roomID
         = Some (setJoinAccountData
                   (default zeroJoinResponse (Rooms_Join data !! roomID))
                   (currentValues adb localpart roomID dts)))
    ∧ (∀ roomID, roomID ∉ dataTypes.*1 →
         Rooms_Join data' !! roomID = Rooms_Join data !! roomID)
    ∧ (∀ dts, ("", dts) ∈ dataTypes →
         AccountData data' = currentValues adb localpart "" dts)
    ∧ ("" ∉ dataTypes.*1 → AccountData data' = AccountData data)
    ∧ NextBatch data' = NextBatch data
    ∧ Rooms_Invite data' = Rooms_Invite data
    ∧ Rooms_Leave data' = Rooms_Leave data.
Proof.
  revert data. induction dataTypes as [|[r ts] rest IH]; intros data Hnd Hans.
  - exists data. simpl. split_and!; try done.
    + intros ?? Hin. by apply elem_of_nil in Hin.
    + intros ? Hin. by apply elem_of_nil in Hin.
  - simpl in Hnd, Hans. apply NoDup_cons in Hnd as [Hr Hnd].
    apply andb_true_iff in Hans as [Hts Hans].
    simpl. rewrite (fetchDataTypes_ok _ _ _ _ _ Hts). simpl.
    destruct (IH (attachAccountData data r (currentValues adb localpart r ts))
                Hnd Hans)
      as (data' & Hrun & Hroom & Hother & Hglob & Hnoglob & Hnb & Hinv & Hlv).
    exists data'. split; [done|].
    destruct (decide (r = "")) as [->|Hne].
    + rewrite attachAccountData_global in *. simpl in *.
      split_and!; try done.
      * intros roomID dts Hin Hroomne.
        apply elem_of_cons in Hin as [Heq|Hin]; [congruence|].
        by apply Hroom.
      * intros roomID Hnotin. apply not_elem_of_cons in Hnotin as [_ ?].
        by apply Hother.
      * intros dts Hin. apply elem_of_cons in Hin as [Heq|Hin].
        -- inversion Heq; subst. by rewrite Hnoglob.
        -- exfalso. apply Hr. apply list_elem_of_fmap. by exists ("", dts).
      * intros Hnotin. apply not_elem_of_cons in Hnotin as [? _]. done.
    + rewrite (attachAccountData_room _ _ _ Hne) in *. simpl in *.
      split_and!; try done.
      * intros roomID dts Hin Hroomne.
        apply elem_of_cons in Hin as [Heq|Hin].
        -- inversion Heq; subst. rewrite Hother; [|done].
           by rewrite lookup_insert_eq.
        -- assert (roomID ≠ r) as Hrr.
           { intros ->. apply Hr. apply list_elem_of_fmap. by exists (r, dts). }
           rewrite (Hroom _ _ Hin Hroomne).
           by rewrite lookup_insert_ne.
      * intros roomID Hnotin. apply not_elem_of_cons in Hnotin as [? ?].
        rewrite Hother; [|done]. by rewrite lookup_insert_ne.
      * intros dts Hin. apply elem_of_cons in Hin as [Heq|Hin]; [congruence|].
        by apply Hglob.
      * intros Hnotin. apply not_elem_of_cons in Hnotin as [_ ?].
        by rewrite Hnoglob.
Qed.

(** A failing query of the accounts store fails the whole merge. *)
Lemma appendRooms_err adb localpart dataTypes data :
  answersb adb localpart dataTypes = false →
  ∃ err, appendRooms adb localpart dataTypes data = Err err.
Proof.
  revert data. induction dataTypes as [|[r ts] rest IH]; intros data Hans;
    simpl in *; [done|].
  apply andb_false_iff in Hans as [Hts|Hans].
  - destruct (fetchDataTypes_err _ _ _ _ [] Hts) as [err ->]. by exists err.
  - destruct (fetchDataTypes adb localpart r ts []) as [evs|err] eqn:E;
      simpl; [by apply IH | by exists err].
Qed.

(** The merge on an incremental sync, when both stores answer. *)
Lemma appendAccountData_incremental rp data userID req currentPos
    localpart domain dataTypes :
  since req ≠ 0 →
  SplitID "@"%char userID = Ok (localpart, domain) →
  GetAccountDataInRange (db rp) userID (since req) currentPos = Ok dataTypes →
  NoDup dataTypes.*1 →
  answersb (accountDB rp) localpart dataTypes = true →
  ∃ data',
    appendAccountData rp data userID req currentPos = Ok data'
    ∧ (∀ roomID dts, (roomID, dts) ∈ dataTypes → roomID ≠ "" →
         Rooms_Join data' !! roomID
         = Some (setJoinAccountData
                   (default zeroJoinResponse (Rooms_Join data !! roomID))
                   (currentValues (accountDB rp) localpart roomID dts)))
    ∧ (∀ roomID, roomID ∉ dataTypes.*1 →
         Rooms_Join data' !! roomID = Rooms_Join data !! roomID)
    ∧ (∀ dts, ("", dts) ∈ dataTypes →
         AccountData data' = currentValues (accountDB rp) localpart "" dts)
    ∧ ("" ∉ dataTypes.*1 → AccountData data' = AccountData data).
Proof.
  intros Hsince Hsplit Hrange Hnd Hans.
  unfold appendAccountData. rewrite Hsplit. simpl.
  rewrite bool_decide_eq_false_2; [|done]. rewrite Hrange. simpl.
  destruct (appendRooms_ok (accountDB rp) localpart dataTypes data Hnd Hans)
    as (data' & Hrun & Hroom & Hother & Hglob & Hnoglob & _).
  case_bool_decide as Hlen.
  - apply length_zero_iff_nil in Hlen. subst dataTypes.
    simpl in Hrun. inversion Hrun; subst data'.
    exists data. split_and!; try done.
  - exists data'. split_and!; done.
Qed.

(** *** The wait loop *)

(** A wake after which the snapshot is computed and found empty: the
    position moved for a reason this user does not care about. *)
Definition nearMiss (syncReq : syncRequest) (c : SelectCase) : bool :=
  match c with
  | Notified pos rp' =>
      match currentSyncForUser rp' syncReq pos with
      | Ok syncData => IsEmpty syncData
      | Err _ => false
      end
  | _ => false
  end.

(** The position the loop knows after a run of wakes. *)
Fixpoint posAfter (currPos : StreamPosition) (wakes : list SelectCase)
  : StreamPosition :=
  match wakes with
  | [] => currPos
  | Notified pos _ :: rest => posAfter pos rest
  | _ :: rest => posAfter currPos rest
  end.

(** The channels the loop asks for while it goes through a run of wakes. *)
Fixpoint channelsAsked (currPos : StreamPosition) (wakes : list SelectCase)
  : list Effect :=
  match wakes with
  | [] => []
  | Notified pos _ :: rest => GetNotifyChannel currPos :: channelsAsked pos rest
  | _ :: rest => GetNotifyChannel currPos :: channelsAsked currPos rest
  end.

Lemma waitLoop_only_asks_channels syncReq currPos cases :
  Forall (λ e, isGetNotifyChannel e = true) (trace (waitLoop syncReq currPos cases)).
Proof.
  revert currPos. induction cases as [|c rest IH]; intros currPos; simpl.
  - by repeat constructor.
  - destruct c as [pos rp'| |err]; simpl; try by repeat constructor.
    destruct (currentSyncForUser rp' syncReq pos) as [d|err];
      simpl; try by repeat constructor.
    destruct (IsEmpty d); simpl; [constructor; [done | apply IH] |].
    by repeat constructor.
Qed.

Lemma waitLoop_after_nearMisses syncReq currPos wakes rest :
  forallb (nearMiss syncReq) wakes = true →
  waitLoop syncReq currPos (wakes ++ rest)
  = mkRun (channelsAsked currPos wakes
             ++ trace (waitLoop syncReq (posAfter currPos wakes) rest))
          (outcome (waitLoop syncReq (posAfter currPos wakes) rest)).
Proof.
  revert currPos. induction wakes as [|c wakes IH]; intros currPos Hall.
  - simpl. by destruct (waitLoop syncReq currPos rest).
  - simpl in Hall. apply andb_true_iff in Hall as [Hc Hall].
    destruct c as [pos rp'| |err]; simpl in Hc; try done.
    simpl. destruct (currentSyncForUser rp' syncReq pos) as [d|err]; [|done].
    rewrite Hc. simpl. by rewrite (IH pos Hall).
Qed.

(** The loop is still blocked exactly when every case so far was a near
    miss: the timer, a cancellation, a failing or a non-empty snapshot each
    end it. *)
Lemma waitLoop_blocked_iff syncReq currPos cases :
  outcome (waitLoop syncReq currPos cases) = None
  ↔ forallb (nearMiss syncReq) cases = true.
Proof.
  revert currPos. induction cases as [|c rest IH]; intros currPos; simpl.
  - done.
  - destruct c as [pos rp'| |err]; simpl; try done.
    destruct (currentSyncForUser rp' syncReq pos) as [d|err]; simpl; [|done].
    destruct (IsEmpty d); simpl; [apply IH | done].
Qed.

Lemma count_cons kind (e : Effect) (tr : list Effect) :
  count kind (e :: tr) = ((if kind e then 1 else 0) + count kind tr)%nat.
Proof. unfold count. simpl. by destruct (kind e). Qed.

Lemma count_app kind (tr1 tr2 : list Effect) :
  count kind (tr1 ++ tr2) = (count kind tr1 + count kind tr2)%nat.
Proof. unfold count. by rewrite List.filter_app, length_app. Qed.

Lemma count_channels_only kind (tr : list Effect) :
  (∀ pos, kind (GetNotifyChannel pos) = false) →
  Forall (λ e, isGetNotifyChannel e = true) tr →
  count kind tr = 0%nat.
Proof.
  intros Hkind Htr. unfold count.
  induction Htr as [|e tr He _ IH]; [done|].
  destruct e; try done. simpl. by rewrite Hkind.
Qed.

(** The long-poll branch of the handler, spelled out. *)
Lemma OnIncomingSyncRequest_long_poll rp req device currPos cases syncReq :
  newSyncRequest req (UserID device) = Ok syncReq →
  since syncReq ≠ 0 →
  timeout syncReq ≠ 0 →
  OnIncomingSyncRequest rp req device currPos cases
  = mkRun (NewTimer (timeout syncReq) :: GetListener syncReq
             :: trace (deferred (waitLoop syncReq currPos cases)))
          (outcome (deferred (waitLoop syncReq currPos cases))).
Proof.
  intros Hreq Hsince Htimeout. unfold OnIncomingSyncRequest. rewrite Hreq.
  rewrite (bool_decide_eq_false_2 _ Hsince).
  rewrite (bool_decide_eq_false_2 _ Htimeout). simpl.
  reflexivity.
Qed.

Lemma deferred_outcome {R : Type} (r : Run Effect R) :
  outcome (deferred r) = outcome r.
Proof. unfold deferred. by destruct (outcome r) eqn:E. Qed.

(** *** The claims about /sync *)

(** C4 (amended).  A request with [since = 0] or [timeout = 0] never waits:
    the handler starts no timer and takes no listener, whatever the runtime
    would have offered to [select], and returns at once.  The snapshot is
    computed at the position read on arrival, by [CompleteSync] when
    [since = 0] and by [IncrementalSync] from [since] to that position
    otherwise, then merged with account data.  The response is 200 with
    the snapshot when the computation succeeds, and the logged error
    response when it fails. *)
Theorem immediate_sync_skips_waiting rp req device currPos cases syncReq :
  newSyncRequest req (UserID device) = Ok syncReq →
  since syncReq = 0 ∨ timeout syncReq = 0 →
  trace (OnIncomingSyncRequest rp req device currPos cases) = []
  ∧ outcome (OnIncomingSyncRequest rp req device currPos cases)
    = Some (match currentSyncForUser rp syncReq currPos with
            | Ok syncData => respond 200 syncData
            | Err err => LogThenError err
            end)
  ∧ (since syncReq = 0 →
       currentSyncForUser rp syncReq currPos
       = (res ← CompleteSync (db rp) (userID syncReq) (limit syncReq);
          appendAccountData rp res (userID syncReq) syncReq currPos))
  ∧ (since syncReq ≠ 0 →
       currentSyncForUser rp syncReq currPos
       = (res ← IncrementalSync (db rp) (userID syncReq) (since syncReq)
                  currPos (limit syncReq);
          appendAccountData rp res (userID syncReq) syncReq currPos)).
Proof.
  intros Hreq Hnow.
  assert (bool_decide (since syncReq = 0) || bool_decide (timeout syncReq = 0)
          = true) as Hguard.
  { apply orb_true_iff.
    destruct Hnow as [H|H]; [left | right]; by apply bool_decide_eq_true_2. }
  unfold OnIncomingSyncRequest. rewrite Hreq, Hguard.
  split_and!.
  - by destruct (currentSyncForUser rp syncReq currPos).
  - by destruct (currentSyncForUser rp syncReq currPos).
  - intros H0. unfold currentSyncForUser. by rewrite bool_decide_eq_true_2.
  - intros H0. unfold currentSyncForUser. by rewrite bool_decide_eq_false_2.
Qed.

(** C5.  On the long-poll path, when [select] takes the timer case, after
    any number of wakes whose snapshots all came out empty, the handler
    answers 200 with [NewResponse(since)]: a response that is empty and
    whose token is the request's own [since]. *)
Theorem timeout_echoes_since rp req device currPos wakes rest syncReq :
  newSyncRequest req (UserID device) = Ok syncReq →
  since syncReq ≠ 0 →
  timeout syncReq ≠ 0 →
  forallb (nearMiss syncReq) wakes = true →
  outcome (OnIncomingSyncRequest rp req device currPos (wakes ++ TimerC :: rest))
  = Some (respond 200 (NewResponse (since syncReq)))
  ∧ IsEmpty (NewResponse (ClientEvent := ClientEvent) (since syncReq)) = true
  ∧ NextBatch (NewResponse (ClientEvent := ClientEvent) (since syncReq))
    = since syncReq.
Proof.
  intros Hreq Hsince Htimeout Hwakes.
  rewrite (OnIncomingSyncRequest_long_poll _ _ _ _ _ _ Hreq Hsince Htimeout).
  simpl. rewrite deferred_outcome.
  by rewrite (waitLoop_after_nearMisses _ _ _ _ Hwakes).
Qed.

(** C6.  On the long-poll path, when the listener wakes (after any number
    of near misses), the snapshot at the listener's position is computed to
    the end and it alone decides what happens next, whatever the runtime
    offers afterwards (the timer included).  A non-empty snapshot is the
    200 response; a failure is the error response; an empty snapshot sends
    the handler back into the loop at the new position, where the remaining
    cases decide.  The whole run starts one timer and never another. *)
Theorem wake_computes_snapshot_then_decides
    rp req device currPos wakes pos rp' rest syncReq :
  newSyncRequest req (UserID device) = Ok syncReq →
  since syncReq ≠ 0 →
  timeout syncReq ≠ 0 →
  forallb (nearMiss syncReq) wakes = true →
  outcome (OnIncomingSyncRequest rp req device currPos
             (wakes ++ Notified pos rp' :: rest))
  = match currentSyncForUser rp' syncReq pos with
    | Err err => Some (LogThenError err)
    | Ok syncData =>
        if IsEmpty syncData then outcome (waitLoop syncReq pos rest)
        else Some (respond 200 syncData)
    end
  ∧ count isNewTimer
      (trace (OnIncomingSyncRequest rp req device currPos
                (wakes ++ Notified pos rp' :: rest))) = 1%nat.
Proof.
  intros Hreq Hsince Htimeout Hwakes.
  rewrite (OnIncomingSyncRequest_long_poll _ _ _ _ _ _ Hreq Hsince Htimeout).
  simpl. split.
  - rewrite deferred_outcome.
    rewrite (waitLoop_after_nearMisses _ _ _ _ Hwakes). simpl.
    destruct (currentSyncForUser rp' syncReq pos) as [d|err]; [|done].
    by destruct (IsEmpty d).
  - pose proof (waitLoop_only_asks_channels syncReq currPos
                  (wakes ++ Notified pos rp' :: rest)) as Hch.
    rewrite !count_cons. unfold deferred.
    destruct (outcome (waitLoop syncReq currPos
                         (wakes ++ Notified pos rp' :: rest))); simpl.
    + rewrite count_app.
      by rewrite (count_channels_only isNewTimer _ (λ _, eq_refl) Hch).
    + by rewrite (count_channels_only isNewTimer _ (λ _, eq_refl) Hch).
Qed.

(** C8.  On the long-poll path the handler takes one listener.  When it
    returns, by whichever exit, it has closed that listener exactly once,
    after its last use and before stopping the timer; it returns as soon as
    a case is not a near miss.  While every case so far was a near miss the
    request is still waiting and still holds the listener. *)
Theorem listener_taken_once_closed_once rp req device currPos cases syncReq :
  newSyncRequest req (UserID device) = Ok syncReq →
  since syncReq ≠ 0 →
  timeout syncReq ≠ 0 →
  count isGetListener
    (trace (OnIncomingSyncRequest rp req device currPos cases)) = 1%nat
  ∧ (forallb (nearMiss syncReq) cases = false →
       is_Some (outcome (OnIncomingSyncRequest rp req device currPos cases)))
  ∧ (is_Some (outcome (OnIncomingSyncRequest rp req device currPos cases)) →
       count isListenerClose
         (trace (OnIncomingSyncRequest rp req device currPos cases)) = 1%nat
       ∧ ∃ asked,
           Forall (λ e, isGetNotifyChannel e = true) asked
           ∧ trace (OnIncomingSyncRequest rp req device currPos cases)
             = NewTimer (timeout syncReq) :: GetListener syncReq
                 :: asked ++ [ListenerClose; TimerStop])
  ∧ (outcome (OnIncomingSyncRequest rp req device currPos cases) = None →
       forallb (nearMiss syncReq) cases = true
       ∧ count isListenerClose
           (trace (OnIncomingSyncRequest rp req device currPos cases)) = 0%nat).
Proof.
  intros Hreq Hsince Htimeout.
  rewrite (OnIncomingSyncRequest_long_poll _ _ _ _ _ _ Hreq Hsince Htimeout).
  simpl. rewrite deferred_outcome.
  pose proof (waitLoop_only_asks_channels syncReq currPos cases) as Hch.
  pose proof (waitLoop_blocked_iff syncReq currPos cases) as Hblocked.
  unfold deferred.
  destruct (outcome (waitLoop syncReq currPos cases)) as [resp|] eqn:Hout;
    simpl.
  - split_and!.
    + rewrite !count_cons, count_app.
      by rewrite (count_channels_only isGetListener _ (λ _, eq_refl) Hch).
    + by eexists.
    + intros _. split.
      * rewrite !count_cons, count_app.
        by rewrite (count_channels_only isListenerClose _ (λ _, eq_refl) Hch).
      * by exists (trace (waitLoop syncReq currPos cases)).
    + done.
  - split_and!.
    + rewrite !count_cons.
      by rewrite (count_channels_only isGetListener _ (λ _, eq_refl) Hch).
    + intros Hnot. rewrite (proj1 Hblocked eq_refl) in Hnot. done.
    + intros [? ?]. done.
    + intros _. split; [by apply Hblocked|].
      rewrite !count_cons.
      by rewrite (count_channels_only isListenerClose _ (λ _, eq_refl) Hch).
Qed.

(** C9.  On an incremental sync the merge asks the sync store which
    account-data types changed between [since] and the current position,
    room by room, and, when the accounts store answers, the response
    carries for every room listed (the empty room ID being the global
    section) exactly the values the accounts store holds now for the
    listed types, one fetch per type: every changed type is delivered, with
    its current value and nothing of its history. *)
Theorem incremental_account_data_current_values
    rp data userID req currentPos localpart domain dataTypes :
  since req ≠ 0 →
  SplitID "@"%char userID = Ok (localpart, domain) →
  GetAccountDataInRange (db rp) userID (since req) currentPos = Ok dataTypes →
  NoDup dataTypes.*1 →
  answersb (accountDB rp) localpart dataTypes = true →
  ∃ data',
    appendAccountData rp data userID req currentPos = Ok data'
    ∧ ∀ roomID dts, (roomID, dts) ∈ dataTypes →
        accountDataOf data' roomID
        = currentValues (accountDB rp) localpart roomID dts
        ∧ ∀ dt ev, dt ∈ dts →
            GetAccountDataByType (accountDB rp) localpart roomID dt = Ok ev →
            ev `sublist_of` accountDataOf data' roomID.
Proof.
  intros Hsince Hsplit Hrange Hnd Hans.
  destruct (appendAccountData_incremental rp data userID req currentPos
              localpart domain dataTypes Hsince Hsplit Hrange Hnd Hans)
    as (data' & Hrun & Hroom & _ & Hglob & _).
  exists data'. split; [done|]. intros roomID dts Hin.
  assert (accountDataOf data' roomID
          = currentValues (accountDB rp) localpart roomID dts) as Heq.
  { unfold accountDataOf. case_bool_decide as Hr.
    - subst roomID. by apply Hglob.
    - by rewrite (Hroom _ _ Hin Hr). }
  split; [done|]. intros dt ev Hdt Hev. rewrite Heq.
  unfold currentValues. clear -Hdt Hev.
  induction dts as [|dt' dts IH]; [by apply elem_of_nil in Hdt|].
  simpl. apply elem_of_cons in Hdt as [->|Hdt].
  - unfold currentValue at 1. rewrite Hev. by apply sublist_inserts_r.
  - apply sublist_inserts_l. by apply IH.
Qed.

(** C10.  On an incremental sync, for every room the sync store lists
    with changed account data: when the response has no joined-room entry
    for it, the merge inserts one that holds the fetched account-data
    events and neither state nor timeline events; when it has one, the
    entry keeps its state and timeline and its account-data events become
    the fetched ones (what it held before is dropped). *)
Theorem incremental_account_data_room_entry
    rp data userID req currentPos localpart domain dataTypes :
  since req ≠ 0 →
  SplitID "@"%char userID = Ok (localpart, domain) →
  GetAccountDataInRange (db rp) userID (since req) currentPos = Ok dataTypes →
  NoDup dataTypes.*1 →
  answersb (accountDB rp) localpart dataTypes = true →
  ∃ data',
    appendAccountData rp data userID req currentPos = Ok data'
    ∧ ∀ roomID dts, (roomID, dts) ∈ dataTypes → roomID ≠ "" →
        (Rooms_Join data !! roomID = None →
           Rooms_Join data' !! roomID
           = Some {| State_Events := [];
                     Timeline_Events := [];
                     AccountData_Events :=
                       currentValues (accountDB rp) localpart roomID dts |})
        ∧ (∀ jr, Rooms_Join data !! roomID = Some jr →
             Rooms_Join data' !! roomID
             = Some {| State_Events := State_Events jr;
                       Timeline_Events := Timeline_Events jr;
                       AccountData_Events :=
                         currentValues (accountDB rp) localpart roomID dts |}).
Proof.
  intros Hsince Hsplit Hrange Hnd Hans.
  destruct (appendAccountData_incremental rp data userID req currentPos
              localpart domain dataTypes Hsince Hsplit Hrange Hnd Hans)
    as (data' & Hrun & Hroom & _).
  exists data'. split; [done|]. intros roomID dts Hin Hne.
  rewrite (Hroom _ _ Hin Hne). split.
  - by intros ->.
  - by intros jr ->.
Qed.

(** *** Further properties of the /sync handler *)

Lemma attachAccountData_frame data roomID events :
  NextBatch (attachAccountData data roomID events) = NextBatch data
  ∧ Rooms_Invite (attachAccountData data roomID events) = Rooms_Invite data
  ∧ Rooms_Leave (attachAccountData data roomID events) = Rooms_Leave data
  ∧ (∀ r, r ≠ roomID →
       Rooms_Join (attachAccountData data roomID events) !! r
       = Rooms_Join data !! r)
  ∧ (roomID ≠ "" →
       AccountData (attachAccountData data roomID events) = AccountData data).
Proof.
  destruct (decide (roomID = "")) as [->|Hne].
  - rewrite attachAccountData_global. by split_and!.
  - rewrite (attachAccountData_room _ _ _ Hne). simpl. split_and!; try done.
    intros r Hr. by rewrite lookup_insert_ne.
Qed.

(** Whatever the loop over the rooms returns, it has touched only the
    account data of the rooms it was given. *)
Lemma appendRooms_frame adb localpart dataTypes data data' :
  appendRooms adb localpart dataTypes data = Ok data' →
  NextBatch data' = NextBatch data
  ∧ Rooms_Invite data' = Rooms_Invite data
  ∧ Rooms_Leave data' = Rooms_Leave data
  ∧ (∀ r, r ∉ dataTypes.*1 → Rooms_Join data' !! r = Rooms_Join data !! r)
  ∧ ("" ∉ dataTypes.*1 → AccountData data' = AccountData data).
Proof.
  revert data. induction dataTypes as [|[r ts] rest IH]; intros data Hrun.
  - simpl in Hrun. inversion Hrun; subst. by split_and!.
  - simpl in Hrun.
    destruct (fetchDataTypes adb localpart r ts []) as [events|err]; [|done].
    simpl in Hrun. apply IH in Hrun as (Hnb & Hinv & Hlv & Hjoin & Hglob).
    destruct (attachAccountData_frame data r events)
      as (Hnb' & Hinv' & Hlv' & Hjoin' & Hglob').
    split_and!; try congruence.
    + intros r' Hr'. simpl in Hr'. apply not_elem_of_cons in Hr' as [Hne Hr'].
      rewrite (Hjoin _ Hr'). by apply Hjoin'.
    + intros Hr'. simpl in Hr'. apply not_elem_of_cons in Hr' as [Hne Hr'].
      rewrite (Hglob Hr'). by apply Hglob'.
Qed.

Lemma appendRooms_returns adb localpart dataTypes data :
  answersb adb localpart dataTypes = true →
  ∃ data', appendRooms adb localpart dataTypes data = Ok data'.
Proof.
  revert data. induction dataTypes as [|[r ts] rest IH]; intros data Hans.
  - by exists data.
  - simpl in Hans. apply andb_true_iff in Hans as [Hts Hans].
    simpl. rewrite (fetchDataTypes_ok _ _ _ _ _ Hts). simpl. by apply IH.
Qed.

(** X6.  Whenever the account-data merge returns a response, on an initial
    or an incremental sync, that response has the token, the invites and
    the leaves of the snapshot it was given: the merge only writes account
    data. *)
Theorem merge_keeps_token_and_membership rp data userID req currentPos data' :
  appendAccountData rp data userID req currentPos = Ok data' →
  NextBatch data' = NextBatch data
  ∧ Rooms_Invite data' = Rooms_Invite data
  ∧ Rooms_Leave data' = Rooms_Leave data.
Proof.
  unfold appendAccountData.
  destruct (SplitID "@"%char userID) as [[localpart domain]|err]; [|done].
  simpl. case_bool_decide as Hsince.
  - destruct (GetAccountData (accountDB rp) localpart) as [[global rooms]|err];
      [|done].
    simpl. by intros [= <-].
  - destruct (GetAccountDataInRange (db rp) userID (since req) currentPos)
      as [dataTypes|err]; [|done].
    simpl. case_bool_decide.
    + by intros [= <-].
    + intros Hrun. apply appendRooms_frame in Hrun. tauto.
Qed.

(** X8.  On an incremental sync, whenever the merge returns a response,
    every joined room the sync store did not list has the entry it had
    (or still has none), and the global account data is as it was unless the
    empty room ID was listed. *)
Theorem incremental_merge_leaves_other_rooms
    rp data userID req currentPos dataTypes data' :
  since req ≠ 0 →
  GetAccountDataInRange (db rp) userID (since req) currentPos = Ok dataTypes →
  appendAccountData rp data userID req currentPos = Ok data' →
  (∀ roomID, roomID ∉ dataTypes.*1 →
     Rooms_Join data' !! roomID = Rooms_Join data !! roomID)
  ∧ ("" ∉ dataTypes.*1 → AccountData data' = AccountData data).
Proof.
  intros Hsince Hrange. unfold appendAccountData.
  destruct (SplitID "@"%char userID) as [[localpart domain]|err]; [|done].
  simpl. rewrite bool_decide_eq_false_2; [|done]. rewrite Hrange. simpl.
  case_bool_decide.
  - by intros [= <-].
  - intros Hrun. apply appendRooms_frame in Hrun. tauto.
Qed.

(** X7.  On an incremental sync for a well-formed user ID, the merge
    returns a response exactly when the accounts store answers every fetch
    the listed types call for: one failing fetch, for whichever room, fails
    the whole merge and no partial response comes back. *)
Theorem incremental_merge_all_or_nothing
    rp data userID req currentPos localpart domain dataTypes :
  since req ≠ 0 →
  SplitID "@"%char userID = Ok (localpart, domain) →
  GetAccountDataInRange (db rp) userID (since req) currentPos = Ok dataTypes →
  (answersb (accountDB rp) localpart dataTypes = true
   ↔ ∃ data', appendAccountData rp data userID req currentPos = Ok data')
  ∧ (answersb (accountDB rp) localpart dataTypes = false
     ↔ ∃ err, appendAccountData rp data userID req currentPos = Err err).
Proof.
  intros Hsince Hsplit Hrange. unfold appendAccountData.
  rewrite Hsplit. simpl. rewrite bool_decide_eq_false_2; [|done].
  rewrite Hrange. simpl.
  destruct (answersb (accountDB rp) localpart dataTypes) eqn:Hans.
  - destruct (appendRooms_returns _ _ _ data Hans) as [data' Hrun].
    case_bool_decide.
    + split; split; try done; try by eexists. by intros [? ?].
    + rewrite Hrun. split; split; try done; try by eexists. by intros [? ?].
  - destruct (appendRooms_err _ _ _ data Hans) as [err Hrun].
    case_bool_decide as Hlen.
    + apply length_zero_iff_nil in Hlen. by subst dataTypes.
    + rewrite Hrun. split; split; try done; try by eexists. by intros [? ?].
Qed.

(** X9.  On an incremental sync for a well-formed user ID, when the sync
    store lists no changed account data the merge hands back the snapshot
    as it is, whatever the accounts store holds or would answer. *)
Theorem incremental_nothing_changed rp data userID req currentPos localpart domain :
  since req ≠ 0 →
  SplitID "@"%char userID = Ok (localpart, domain) →
  GetAccountDataInRange (db rp) userID (since req) currentPos = Ok [] →
  ∀ adb,
    appendAccountData {| db := db rp; accountDB := adb |} data userID req currentPos
    = Ok data.
Proof.
  intros Hsince Hsplit Hrange adb. unfold appendAccountData.
  rewrite Hsplit. simpl. rewrite bool_decide_eq_false_2; [|done].
  by rewrite Hrange.
Qed.

(** X5.  On an initial sync for a well-formed user ID, when the accounts
    store answers, the merge replaces the global account data by the stored
    one and goes through the joined rooms of the snapshot: a room for which
    account data is stored gets it, a room for which none is stored keeps
    its entry as it is.  No room is added and none is dropped, so stored
    account data of a room the snapshot does not list is not sent. *)
Theorem initial_merge_fills_joined_rooms
    rp data userID req currentPos localpart domain global rooms :
  since req = 0 →
  SplitID "@"%char userID = Ok (localpart, domain) →
  GetAccountData (accountDB rp) localpart = Ok (global, rooms) →
  ∃ data',
    appendAccountData rp data userID req currentPos = Ok data'
    ∧ AccountData data' = global
    ∧ (∀ roomID,
         Rooms_Join data' !! roomID
         = (λ j, if bool_decide (default [] (rooms !! roomID) ≠ [])
                 then setJoinAccountData j (default [] (rooms !! roomID))
                 else j) <$> Rooms_Join data !! roomID)
    ∧ dom (Rooms_Join data') = dom (Rooms_Join data).
Proof.
  intros Hsince Hsplit Hget. unfold appendAccountData.
  rewrite Hsplit. simpl. rewrite bool_decide_eq_true_2; [|done].
  rewrite Hget. simpl. eexists. split; [done|]. simpl.
  assert (∀ roomID,
    attachAllRooms rooms (Rooms_Join data) !! roomID
    = (λ j, if bool_decide (default [] (rooms !! roomID) ≠ [])
            then setJoinAccountData j (default [] (rooms !! roomID))
            else j) <$> Rooms_Join data !! roomID) as Hlookup.
  { intros roomID. unfold attachAllRooms. rewrite map_lookup_imap.
    destruct (Rooms_Join data !! roomID) as [j|]; [|done]. simpl.
    destruct (default [] (rooms !! roomID)) as [|ev evs]; [done|].
    repeat case_bool_decide; try done; simpl in *; lia. }
  split_and!; [done | done |].
  apply set_eq. intros roomID. rewrite !elem_of_dom, Hlookup.
  by rewrite fmap_is_Some.
Qed.

(** X4.  An initial sync does not depend on the stream position it is
    computed at: neither [CompleteSync] nor the wholesale account-data
    merge reads it. *)
Theorem initial_sync_ignores_position rp req pos1 pos2 :
  since req = 0 →
  currentSyncForUser rp req pos1 = currentSyncForUser rp req pos2.
Proof.
  intros Hsince. unfold currentSyncForUser, appendAccountData.
  by rewrite !bool_decide_eq_true_2.
Qed.

(** What the wait loop can return: the echo of [since] on a timeout, a
    non-empty snapshot, or a logged error. *)
Lemma waitLoop_outcome syncReq currPos cases resp :
  outcome (waitLoop syncReq currPos cases) = Some resp →
  resp = respond 200 (NewResponse (since syncReq))
  ∨ (∃ syncData, resp = respond 200 syncData ∧ IsEmpty syncData = false)
  ∨ (∃ err, resp = LogThenError err).
Proof.
  revert currPos. induction cases as [|c rest IH]; intros currPos; simpl.
  - done.
  - destruct c as [pos rp'| |err]; simpl.
    + destruct (currentSyncForUser rp' syncReq pos) as [d|err]; simpl.
      * destruct (IsEmpty d) eqn:Hempty; simpl; [apply IH|].
        intros [= <-]. right. left. by exists d.
      * intros [= <-]. right. right. by exists err.
    + intros [= <-]. by left.
    + intros [= <-]. right. right. by exists err.
Qed.

(** X2.  On the long-poll path a response is one of three things: the
    200 echo of [since] built by [NewResponse], a 200 snapshot that is not
    empty, or the logged error.  An empty snapshot is never sent. *)
Theorem long_poll_never_sends_empty_snapshot
    rp req device currPos cases syncReq resp :
  newSyncRequest req (UserID device) = Ok syncReq →
  since syncReq ≠ 0 →
  timeout syncReq ≠ 0 →
  outcome (OnIncomingSyncRequest rp req device currPos cases) = Some resp →
  resp = respond 200 (NewResponse (since syncReq))
  ∨ (∃ syncData, resp = respond 200 syncData ∧ IsEmpty syncData = false)
  ∨ (∃ err, resp = LogThenError err).
Proof.
  intros Hreq Hsince Htimeout.
  rewrite (OnIncomingSyncRequest_long_poll _ _ _ _ _ _ Hreq Hsince Htimeout).
  simpl. rewrite deferred_outcome. apply waitLoop_outcome.
Qed.

(** X1.  Whenever the handler returns, the status is 200, 400 or 500.  It
    is 400 exactly when [newSyncRequest] rejects the request, and then the
    handler has touched neither the timer nor the notifier. *)
Theorem sync_response_codes rp req device currPos cases resp :
  outcome (OnIncomingSyncRequest rp req device currPos cases) = Some resp →
  (Code resp = 200 ∨ Code resp = 400 ∨ Code resp = 500)
  ∧ (Code resp = 400 ↔ ∃ err, newSyncRequest req (UserID device) = Err err)
  ∧ (Code resp = 400 →
       trace (OnIncomingSyncRequest rp req device currPos cases) = []).
Proof.
  unfold OnIncomingSyncRequest.
  destruct (newSyncRequest req (UserID device)) as [syncReq|err] eqn:Hreq.
  - destruct (bool_decide (since syncReq = 0) || bool_decide (timeout syncReq = 0)).
    + destruct (currentSyncForUser rp syncReq currPos) as [d|err];
        simpl; intros [= <-]; simpl; split_and!; try tauto; try done;
        split; try done; by intros [? ?].
    + simpl. rewrite deferred_outcome. intros Hout.
      apply waitLoop_outcome in Hout as [->|[(d & -> & _)|(err & ->)]];
        simpl; split_and!; try tauto; try done;
        split; try done; by intros [? ?].
  - simpl. intros [= <-]. simpl. split_and!; try tauto; try done.
    split; [by eexists | done].
Qed.

(** X3.  On the long-poll path, when the request's context is done while
    the handler waits (after any number of near misses), the handler
    returns the logged error and no snapshot; it has asked for the channel
    once per pass, closed the listener and stopped the timer, and what the
    runtime would have offered next plays no part. *)
Theorem cancellation_ends_wait rp req device currPos wakes err rest syncReq :
  newSyncRequest req (UserID device) = Ok syncReq →
  since syncReq ≠ 0 →
  timeout syncReq ≠ 0 →
  forallb (nearMiss syncReq) wakes = true →
  OnIncomingSyncRequest rp req device currPos (wakes ++ ContextDone err :: rest)
  = mkRun (NewTimer (timeout syncReq) :: GetListener syncReq
             :: channelsAsked currPos wakes
             ++ [GetNotifyChannel (posAfter currPos wakes);
                 ListenerClose; TimerStop])
          (Some (LogThenError err)).
Proof.
  intros Hreq Hsince Htimeout Hwakes.
  rewrite (OnIncomingSyncRequest_long_poll _ _ _ _ _ _ Hreq Hsince Htimeout).
  rewrite (waitLoop_after_nearMisses _ _ _ _ Hwakes). simpl.
  unfold deferred. simpl. by rewrite <- app_assoc.
Qed.

End RequestPool.

(** *** The room state endpoints *)

Section StateRequests.
Context {Event ClientEvent : Type}.

(** Modelled from the spec: [types.PrevEventRef] is declared in
    [syncapi/types], outside the source at hand.  Section 6: the
    "prev_content/replaces_state metadata recovered from the event's
    side-channel metadata".  The fields are the two the handler reads;
    [PrevContent] is a [json.RawMessage], [None] when it is [nil]. *)
Record PrevEventRef : Type := mkPrevEventRef {
  PrevContent : option string;
  ReplacesState : string
}.

(** Go's zero value of [PrevEventRef]. *)
Definition zeroPrevEventRef : PrevEventRef :=
  {| PrevContent := None; ReplacesState := EmptyString |}.

Record stateEventInStateResp : Type := mkStateEventInStateResp {
  RespClientEvent : ClientEvent;
  RespPrevContent : option string;
  RespReplacesState : string
}.

(** [storage.SyncServerDatabase], through its two queries on the current
    state of a room.  [GetStateEvent] returns a [nil] event, here [None],
    when the room has no such state. *)
Record StateDatabase : Type := mkStateDatabase {
  GetStateEventsForRoom : string → result (list Event);
  GetStateEvent : string → string → string → result (option Event)
}.

(** The library's [event.Unsigned()], [ToClientEvent(event, FormatAll)] and
    the [Content] field of a client event, and [json.Unmarshal] into a
    [PrevEventRef]. *)
Context (Unsigned : Event → string).
Context (ToClientEvent : Event → ClientEvent).
Context (ClientEventContent : ClientEvent → string).
Context (UnmarshalPrevEventRef : string → result PrevEventRef).

(** Lines 148-165: the body of the loop, for one event. *)
Definition fillStateEvent (event : Event) : result stateEventInStateResp :=
  let stateEvent :=
    {| RespClientEvent := ToClientEvent event;
       RespPrevContent := None;
       RespReplacesState := EmptyString |} in
  if bool_decide (0 < String.length (Unsigned event))%nat then
    prevEventRef ← UnmarshalPrevEventRef (Unsigned event);
    let stateEvent :=
      if bool_decide (0 < String.length (ReplacesState prevEventRef))%nat
      then {| RespClientEvent := RespClientEvent stateEvent;
              RespPrevContent := RespPrevContent stateEvent;
              RespReplacesState := ReplacesState prevEventRef |}
      else stateEvent in
    let stateEvent :=
      match PrevContent prevEventRef with
      | Some prevContent =>
          {| RespClientEvent := RespClientEvent stateEvent;
             RespPrevContent := Some prevContent;
             RespReplacesState := RespReplacesState stateEvent |}
      | None => stateEvent
      end in
    Ok stateEvent
  else Ok stateEvent.

(** Lines 147-168: the loop, appending to [resp]. *)
Fixpoint fillStateEvents (stateEvents : list Event)
    (resp : list stateEventInStateResp) : result (list stateEventInStateResp) :=
  match stateEvents with
  | [] => Ok resp
  | event :: rest =>
      stateEvent ← fillStateEvent event;
      fillStateEvents rest (resp ++ [stateEvent])
  end.

Definition OnIncomingStateRequest (sdb : StateDatabase) (roomID : string)
  : JSONResponse (list stateEventInStateResp) :=
  match GetStateEventsForRoom sdb roomID with
  | Err err => LogThenError err
  | Ok stateEvents =>
      match fillStateEvents stateEvents [] with
      | Err err => LogThenError err
      | Ok resp => {| Code := 200; JSON := json_value resp |}
      end
  end.

Definition OnIncomingStateTypeRequest (sdb : StateDatabase)
    (roomID evType stateKey : string) : JSONResponse string :=
  match GetStateEvent sdb roomID evType stateKey with
  | Err err => LogThenError err
  | Ok None => {| Code := 404; JSON := json_error (NotFound "cannot find state") |}
  | Ok (Some event) =>
      {| Code := 200; JSON := json_value (ClientEventContent (ToClientEvent event)) |}
  end.

(** The unsigned part of an event is empty or decodes. *)
Definition decodes (event : Event) : bool :=
  match Unsigned event with
  | EmptyString => true
  | unsigned =>
      match UnmarshalPrevEventRef unsigned with
      | Ok _ => true
      | Err _ => false
      end
  end.

(** What the unsigned part of an event says about the state it replaced:
    nothing when it is empty. *)
Definition prevEventRefOf (event : Event) : PrevEventRef :=
  match Unsigned event with
  | EmptyString => zeroPrevEventRef
  | unsigned =>
      match UnmarshalPrevEventRef unsigned with
      | Ok prevEventRef => prevEventRef
      | Err _ => zeroPrevEventRef
      end
  end.

Definition stateEventOf (event : Event) : stateEventInStateResp :=
  {| RespClientEvent := ToClientEvent event;
     RespPrevContent := PrevContent (prevEventRefOf event);
     RespReplacesState := ReplacesState (prevEventRefOf event) |}.

Lemma fillStateEvent_decodes event :
  decodes event = true → fillStateEvent event = Ok (stateEventOf event).
Proof.
  unfold decodes, fillStateEvent, stateEventOf, prevEventRefOf.
  destruct (Unsigned event) as [|c unsigned]; [done|].
  rewrite bool_decide_eq_true_2; [|simpl; lia].
  destruct (UnmarshalPrevEventRef (String c unsigned)) as [[pc rs]|err];
    [|done].
  intros _. simpl.
  destruct rs as [|c' rs]; destruct pc as [prevContent|]; simpl; try done.
Qed.

Lemma fillStateEvent_fails event :
  decodes event = false → ∃ err, fillStateEvent event = Err err.
Proof.
  unfold decodes, fillStateEvent.
  destruct (Unsigned event) as [|c unsigned]; [done|].
  rewrite bool_decide_eq_true_2; [|simpl; lia].
  destruct (UnmarshalPrevEventRef (String c unsigned)) as [ref|err];
    [done|].
  intros _. by exists err.
Qed.

Lemma fillStateEvents_decode stateEvents resp :
  forallb decodes stateEvents = true →
  fillStateEvents stateEvents resp = Ok (resp ++ (stateEventOf <$> stateEvents)).
Proof.
  revert resp. induction stateEvents as [|event rest IH]; intros resp Hall.
  - simpl. by rewrite app_nil_r.
  - simpl in Hall. apply andb_true_iff in Hall as [Hevent Hall].
    simpl. rewrite (fillStateEvent_decodes _ Hevent). simpl.
    rewrite (IH _ Hall). by rewrite <- app_assoc.
Qed.

Lemma fillStateEvents_fail stateEvents resp :
  forallb decodes stateEvents = false →
  ∃ err, fillStateEvents stateEvents resp = Err err.
Proof.
  revert resp. induction stateEvents as [|event rest IH]; intros resp Hall;
    [done|].
  simpl in Hall. simpl. destruct (decodes event) eqn:Hevent.
  - rewrite (fillStateEvent_decodes _ Hevent). simpl. by apply IH.
  - destruct (fillStateEvent_fails _ Hevent) as [err ->]. by exists err.
Qed.

(** X10.  When the store returns the state events of the room and the
    unsigned part of each is empty or decodes, the answer is 200 with one
    entry per event, in the store's order: the client form of the event
    with the [prev_content] and [replaces_state] its unsigned part
    carries, and neither when that part is empty or carries none.  An
    empty room state gives 200 with an empty list. *)
Theorem state_request_lists_every_event sdb roomID stateEvents :
  GetStateEventsForRoom sdb roomID = Ok stateEvents →
  forallb decodes stateEvents = true →
  OnIncomingStateRequest sdb roomID
  = {| Code := 200; JSON := json_value (stateEventOf <$> stateEvents) |}.
Proof.
  intros Hstore Hall. unfold OnIncomingStateRequest. rewrite Hstore.
  by rewrite (fillStateEvents_decode _ _ Hall).
Qed.

(** X11.  The answer is 200 or 500, and it is 200 exactly when the store
    returns the state events and the unsigned part of every one of them is
    empty or decodes: a single event whose unsigned part does not decode,
    wherever it stands, turns the whole answer into the logged error. *)
Theorem state_request_all_or_nothing sdb roomID :
  (Code (OnIncomingStateRequest sdb roomID) = 200
   ∨ OnIncomingStateRequest sdb roomID
     = {| Code := 500; JSON := json_error InternalServerError |})
  ∧ (Code (OnIncomingStateRequest sdb roomID) = 200
     ↔ ∃ stateEvents,
         GetStateEventsForRoom sdb roomID = Ok stateEvents
         ∧ forallb decodes stateEvents = true).
Proof.
  unfold OnIncomingStateRequest.
  destruct (GetStateEventsForRoom sdb roomID) as [stateEvents|err].
  - destruct (forallb decodes stateEvents) eqn:Hall.
    + rewrite (fillStateEvents_decode _ _ Hall). simpl.
      split; [by left|]. split; [|done]. by exists stateEvents.
    + destruct (fillStateEvents_fail _ [] Hall) as [err ->]. simpl.
      split; [by right|]. split; [done|].
      intros (evs & [= <-] & Hevs). congruence.
  - simpl. split; [by right|]. split; [done|]. by intros (? & ? & _).
Qed.

(** X12.  The answer to a request for one state event is 404 exactly when
    the store answers that the room has no such state, 200 with the content
    of the event's client form exactly when the store finds the event, and
    the logged error exactly when the store fails. *)
Theorem state_type_request_by_store_answer sdb roomID evType stateKey :
  (GetStateEvent sdb roomID evType stateKey = Ok None
   ↔ OnIncomingStateTypeRequest sdb roomID evType stateKey
     = {| Code := 404; JSON := json_error (NotFound "cannot find state") |})
  ∧ (∀ event,
       GetStateEvent sdb roomID evType stateKey = Ok (Some event) →
       OnIncomingStateTypeRequest sdb roomID evType stateKey
       = {| Code := 200;
            JSON := json_value (ClientEventContent (ToClientEvent event)) |})
  ∧ (Code (OnIncomingStateTypeRequest sdb roomID evType stateKey) = 200
     ↔ ∃ event, GetStateEvent sdb roomID evType stateKey = Ok (Some event))
  ∧ (Code (OnIncomingStateTypeRequest sdb roomID evType stateKey) = 500
     ↔ ∃ err, GetStateEvent sdb roomID evType stateKey = Err err).
Proof.
  unfold OnIncomingStateTypeRequest.
  destruct (GetStateEvent sdb roomID evType stateKey) as [[event|]|err];
    simpl; split_and!; try done; try (split; [done|]; by intros [? ?]);
    try (split; [|done]; by eexists); try (split; done).
  by intros ? [= <-].
Qed.

End StateRequests.

(** *** The handler on concrete requests *)

(** A request whose query parameters parse to the given [syncRequest]. *)
Definition parsed (req : syncRequest) (uid : string) : result syncRequest :=
  Ok (mkSyncRequest uid (limit req) (timeout req) (since req)).

Definition alice : Device := {| UserID := "@alice:hs1" |}.

Definition thirtySeconds : Z := 30000000000.

(** [since=100], [timeout=30s]. *)
Definition longPoll : syncRequest :=
  {| userID := "@alice:hs1"; limit := 20; timeout := thirtySeconds; since := 100 |}.

(** [since=0], [timeout=0]. *)
Definition initialSync : syncRequest :=
  {| userID := "@alice:hs1"; limit := 20; timeout := 0; since := 0 |}.

Definition roomA : JoinResponse string :=
  {| State_Events := ["create"; "alice joins"];
     Timeline_Events := ["hello"];
     AccountData_Events := ["stale tag"] |}.

(** A sync store in which the account data listed in [changed] is what
    changed in any range, and rooms see no new events. *)
Definition syncStore (changed : list (string * list string))
  : SyncServerDatabase (ClientEvent := string) :=
  {| CompleteSync := λ _ _,
       Ok {| NextBatch := 100; AccountData := [];
             Rooms_Join := {[ "!a:hs1" := roomA ]};
             Rooms_Invite := ∅; Rooms_Leave := ∅ |};
     IncrementalSync := λ _ _ currentPos _, Ok (NewResponse currentPos);
     GetAccountDataInRange := λ _ _ _, Ok changed |}.

(** A sync store that is down. *)
Definition brokenStore : SyncServerDatabase (ClientEvent := string) :=
  {| CompleteSync := λ _ _, Err (errors_New "sql: database is closed");
     IncrementalSync := λ _ _ _ _, Err (errors_New "sql: database is closed");
     GetAccountDataInRange := λ _ _ _, Err (errors_New "sql: database is closed") |}.

(** An accounts store holding one value per type. *)
Definition accountStore : AccountsDatabase (ClientEvent := string) :=
  {| GetAccountData := λ _, Ok (["rules v2"], {[ "!a:hs1" := ["tag v2"] ]});
     GetAccountDataByType := λ _ roomID dataType,
       Ok [ (dataType +:+ " v2 in [" +:+ roomID +:+ "]")%string ] |}.

Definition quietPool : RequestPool :=
  {| db := syncStore []; accountDB := accountStore |}.

Definition brokenPool : RequestPool :=
  {| db := brokenStore; accountDB := accountStore |}.

Definition changedTypes : list (string * list string) :=
  [ ("", ["m.push_rules"]);
    ("!a:hs1", ["m.tag"]);
    ("!b:hs1", ["m.tag"; "m.fully_read"]) ].

Definition busyPool : RequestPool :=
  {| db := syncStore changedTypes; accountDB := accountStore |}.

Definition incrementalSnapshot : Response string :=
  {| NextBatch := 107; AccountData := ["stale rules"];
     Rooms_Join := {[ "!a:hs1" := roomA ]};
     Rooms_Invite := ∅; Rooms_Leave := ∅ |}.

(** C4, the claim as stated fails: with [since = 0] and a sync store that is
    down, the handler answers 500 and not 200. *)
Lemma immediate_sync_store_down_is_not_200 :
  since initialSync = 0
  ∧ outcome (OnIncomingSyncRequest parsed gomatrixserverlib.SplitID
               brokenPool initialSync alice 100 [])
    = Some {| Code := 500; JSON := json_error InternalServerError |}
  ∧ ¬ ∃ syncData,
        outcome (OnIncomingSyncRequest parsed gomatrixserverlib.SplitID
                   brokenPool initialSync alice 100 [])
        = Some (respond 200 syncData).
Proof.
  split_and!; [done | done |]. intros [syncData H]. vm_compute in H. congruence.
Qed.

Lemma immediate_sync_skips_waiting_witness :
  trace (OnIncomingSyncRequest parsed gomatrixserverlib.SplitID
           quietPool initialSync alice 100 [TimerC]) = []
  ∧ outcome (OnIncomingSyncRequest parsed gomatrixserverlib.SplitID
               quietPool initialSync alice 100 [TimerC])
    = Some (match currentSyncForUser gomatrixserverlib.SplitID
                    quietPool initialSync 100 with
            | Ok syncData => respond 200 syncData
            | Err err => LogThenError err
            end)
  ∧ (since initialSync = 0 →
       currentSyncForUser gomatrixserverlib.SplitID quietPool initialSync 100
       = (res ← CompleteSync (db quietPool) (userID initialSync) (limit initialSync);
          appendAccountData gomatrixserverlib.SplitID quietPool res
            (userID initialSync) initialSync 100))
  ∧ (since initialSync ≠ 0 →
       currentSyncForUser gomatrixserverlib.SplitID quietPool initialSync 100
       = (res ← IncrementalSync (db quietPool) (userID initialSync)
                  (since initialSync) 100 (limit initialSync);
          appendAccountData gomatrixserverlib.SplitID quietPool res
            (userID initialSync) initialSync 100)).
Proof.
  apply (immediate_sync_skips_waiting parsed gomatrixserverlib.SplitID
           quietPool initialSync alice 100 [TimerC] initialSync).
  - reflexivity.
  - left. reflexivity.
Defined.

Lemma timeout_echoes_since_witness :
  outcome (OnIncomingSyncRequest parsed gomatrixserverlib.SplitID
             quietPool longPoll alice 100
             ([Notified 101 quietPool; Notified 102 quietPool] ++ TimerC :: []))
  = Some (respond 200 (NewResponse 100))
  ∧ IsEmpty (NewResponse (ClientEvent := string) 100) = true
  ∧ NextBatch (NewResponse (ClientEvent := string) 100) = 100.
Proof.
  apply (timeout_echoes_since parsed gomatrixserverlib.SplitID
           quietPool longPoll alice 100
           [Notified 101 quietPool; Notified 102 quietPool] [] longPoll).
  - reflexivity.
  - discriminate.
  - discriminate.
  - vm_compute. reflexivity.
Defined.

(** A near miss at 101, then a wake at 102 that finds account data, with
    the timer due right after. *)
Definition wakeWithData : list (SelectCase (ClientEvent := string)) :=
  [Notified 101 quietPool] ++ Notified 102 busyPool :: [TimerC].

Lemma wake_computes_snapshot_then_decides_witness :
  outcome (OnIncomingSyncRequest parsed gomatrixserverlib.SplitID
             quietPool longPoll alice 100 wakeWithData)
  = match currentSyncForUser gomatrixserverlib.SplitID busyPool longPoll 102 with
    | Err err => Some (LogThenError err)
    | Ok syncData =>
        if IsEmpty syncData
        then outcome (waitLoop gomatrixserverlib.SplitID longPoll 102 [TimerC])
        else Some (respond 200 syncData)
    end
  ∧ count isNewTimer
      (trace (OnIncomingSyncRequest parsed gomatrixserverlib.SplitID
                quietPool longPoll alice 100 wakeWithData)) = 1%nat.
Proof.
  apply (wake_computes_snapshot_then_decides parsed gomatrixserverlib.SplitID
           quietPool longPoll alice 100 [Notified 101 quietPool] 102 busyPool
           [TimerC] longPoll).
  - reflexivity.
  - discriminate.
  - discriminate.
  - vm_compute. reflexivity.
Defined.

(** The four exits of the long-poll path, each on a run of its own: the
    timer, a wake with data, a cancellation, a failing snapshot. *)
Example long_poll_exits :
  let run cases := OnIncomingSyncRequest parsed gomatrixserverlib.SplitID
                     quietPool longPoll alice 100 cases in
  trace (run [TimerC])
  = [NewTimer thirtySeconds; GetListener longPoll; GetNotifyChannel 100;
     ListenerClose; TimerStop]
  ∧ trace (run wakeWithData)
    = [NewTimer thirtySeconds; GetListener longPoll; GetNotifyChannel 100;
       GetNotifyChannel 101; ListenerClose; TimerStop]
  ∧ trace (run [ContextDone (errors_New "context canceled")])
    = [NewTimer thirtySeconds; GetListener longPoll; GetNotifyChannel 100;
       ListenerClose; TimerStop]
  ∧ trace (run [Notified 101 brokenPool])
    = [NewTimer thirtySeconds; GetListener longPoll; GetNotifyChannel 100;
       ListenerClose; TimerStop]
  ∧ Code <$> outcome (run [TimerC]) = Some 200
  ∧ Code <$> outcome (run wakeWithData) = Some 200
  ∧ Code <$> outcome (run [ContextDone (errors_New "context canceled")]) = Some 500
  ∧ Code <$> outcome (run [Notified 101 brokenPool]) = Some 500
  ∧ outcome (run [Notified 101 quietPool]) = None.
Proof. vm_compute. by repeat split. Qed.

Lemma listener_taken_once_closed_once_witness :
  count isGetListener
    (trace (OnIncomingSyncRequest parsed gomatrixserverlib.SplitID
              quietPool longPoll alice 100 wakeWithData)) = 1%nat
  ∧ count isListenerClose
      (trace (OnIncomingSyncRequest parsed gomatrixserverlib.SplitID
                quietPool longPoll alice 100 wakeWithData)) = 1%nat.
Proof.
  destruct (listener_taken_once_closed_once parsed gomatrixserverlib.SplitID
              quietPool longPoll alice 100 wakeWithData longPoll)
    as (Htaken & Hreturns & Hclosed & _).
  - reflexivity.
  - discriminate.
  - discriminate.
  - split; [exact Htaken|].
    apply Hclosed. apply Hreturns. vm_compute. reflexivity.
Defined.

Lemma incremental_account_data_current_values_witness :
  ∃ data',
    appendAccountData gomatrixserverlib.SplitID busyPool incrementalSnapshot
      "@alice:hs1" longPoll 107 = Ok data'
    ∧ ∀ roomID dts, (roomID, dts) ∈ changedTypes →
        accountDataOf data' roomID
        = currentValues (accountDB busyPool) "alice" roomID dts
        ∧ ∀ dt ev, dt ∈ dts →
            GetAccountDataByType (accountDB busyPool) "alice" roomID dt = Ok ev →
            ev `sublist_of` accountDataOf data' roomID.
Proof.
  apply (incremental_account_data_current_values gomatrixserverlib.SplitID
           busyPool incrementalSnapshot "@alice:hs1" longPoll 107
           "alice" "hs1" changedTypes).
  - discriminate.
  - reflexivity.
  - reflexivity.
  - apply (bool_decide_eq_true_1 (NoDup _)). vm_compute. reflexivity.
  - vm_compute. reflexivity.
Defined.

Lemma incremental_account_data_room_entry_witness :
  ∃ data',
    appendAccountData gomatrixserverlib.SplitID busyPool incrementalSnapshot
      "@alice:hs1" longPoll 107 = Ok data'
    ∧ ∀ roomID dts, (roomID, dts) ∈ changedTypes → roomID ≠ "" →
        (Rooms_Join incrementalSnapshot !! roomID = None →
           Rooms_Join data' !! roomID
           = Some {| State_Events := [];
                     Timeline_Events := [];
                     AccountData_Events :=
                       currentValues (accountDB busyPool) "alice" roomID dts |})
        ∧ (∀ jr, Rooms_Join incrementalSnapshot !! roomID = Some jr →
             Rooms_Join data' !! roomID
             = Some {| State_Events := State_Events jr;
                       Timeline_Events := Timeline_Events jr;
                       AccountData_Events :=
                         currentValues (accountDB busyPool) "alice" roomID dts |}).
Proof.
  apply (incremental_account_data_room_entry gomatrixserverlib.SplitID
           busyPool incrementalSnapshot "@alice:hs1" longPoll 107
           "alice" "hs1" changedTypes).
  - discriminate.
  - reflexivity.
  - reflexivity.
  - apply (bool_decide_eq_true_1 (NoDup _)). vm_compute. reflexivity.
  - vm_compute. reflexivity.
Defined.

(** The merge on the concrete snapshot: room [!a:hs1] keeps its state and
    timeline and loses its stale account data, room [!b:hs1] appears with
    account data only, and the global section is replaced. *)
Example merge_on_snapshot :
  ∃ data',
    appendAccountData gomatrixserverlib.SplitID busyPool incrementalSnapshot
      "@alice:hs1" longPoll 107 = Ok data'
    ∧ AccountData data' = ["m.push_rules v2 in []"]
    ∧ Rooms_Join data' !! "!a:hs1"
      = Some {| State_Events := ["create"; "alice joins"];
                Timeline_Events := ["hello"];
                AccountData_Events := ["m.tag v2 in [!a:hs1]"] |}
    ∧ Rooms_Join data' !! "!b:hs1"
      = Some {| State_Events := [];
                Timeline_Events := [];
                AccountData_Events :=
                  ["m.tag v2 in [!b:hs1]"; "m.fully_read v2 in [!b:hs1]"] |}.
Proof. eexists. split; [vm_compute; reflexivity|]. by vm_compute. Qed.

(** A sync store that keeps the positions at which global account-data
    types were set, and reports the types set within [(since, currentPos]]. *)
Definition loggedStore (log : list (StreamPosition * string))
  : SyncServerDatabase (ClientEvent := string) :=
  {| CompleteSync := λ _ _, Ok (NewResponse 0);
     IncrementalSync := λ _ _ currentPos _, Ok (NewResponse currentPos);
     GetAccountDataInRange := λ _ since currentPos,
       match remove_dups
               (snd <$> List.filter
                          (λ '(pos, _), (since <? pos) && (pos <=? currentPos))
                          log) with
       | [] => Ok []
       | dataTypes => Ok [(EmptyString, dataTypes)]
       end |}.

(** Two polls in a row, [(100, 105]] and [(105, 107]], over a type that was
    set at 103 and again at 106, both before the first poll reads the
    accounts store: each poll carries the value the store holds when it is
    asked, so the same value goes out twice and the value set at 103 never
    does. *)
Example account_data_sent_again :
  let poll since currentPos :=
    appendAccountData gomatrixserverlib.SplitID
      {| db := loggedStore [(103, "m.push_rules"); (106, "m.push_rules")];
         accountDB := accountStore |}
      (NewResponse currentPos) "@alice:hs1"
      {| userID := "@alice:hs1"; limit := 20; timeout := 0; since := since |}
      currentPos in
  AccountData <$> (match poll 100 105 with Ok d => Some d | Err _ => None end)
  = Some ["m.push_rules v2 in []"]
  ∧ AccountData <$> (match poll 105 107 with Ok d => Some d | Err _ => None end)
    = Some ["m.push_rules v2 in []"]
  ∧ AccountData <$> (match poll 107 109 with Ok d => Some d | Err _ => None end)
    = Some [].
Proof. by vm_compute. Qed.

(** *** The further properties on concrete requests *)

(** What the merge makes of [incrementalSnapshot] when the three rooms of
    [changedTypes] changed. *)
Definition mergedSnapshot : Response string :=
  match appendAccountData gomatrixserverlib.SplitID busyPool incrementalSnapshot
          "@alice:hs1" longPoll 107 with
  | Ok data' => data'
  | Err _ => incrementalSnapshot
  end.

Lemma merge_keeps_token_and_membership_witness :
  NextBatch mergedSnapshot = NextBatch incrementalSnapshot
  ∧ Rooms_Invite mergedSnapshot = Rooms_Invite incrementalSnapshot
  ∧ Rooms_Leave mergedSnapshot = Rooms_Leave incrementalSnapshot.
Proof.
  apply (merge_keeps_token_and_membership gomatrixserverlib.SplitID
           busyPool incrementalSnapshot "@alice:hs1" longPoll 107 mergedSnapshot).
  vm_compute. reflexivity.
Defined.

Lemma incremental_merge_leaves_other_rooms_witness :
  (∀ roomID, roomID ∉ changedTypes.*1 →
     Rooms_Join mergedSnapshot !! roomID = Rooms_Join incrementalSnapshot !! roomID)
  ∧ ("" ∉ changedTypes.*1 →
       AccountData mergedSnapshot = AccountData incrementalSnapshot).
Proof.
  apply (incremental_merge_leaves_other_rooms gomatrixserverlib.SplitID
           busyPool incrementalSnapshot "@alice:hs1" longPoll 107
           changedTypes mergedSnapshot).
  - discriminate.
  - reflexivity.
  - vm_compute. reflexivity.
Defined.

Lemma incremental_merge_all_or_nothing_witness :
  (answersb (accountDB busyPool) "alice" changedTypes = true
   ↔ ∃ data',
       appendAccountData gomatrixserverlib.SplitID busyPool incrementalSnapshot
         "@alice:hs1" longPoll 107 = Ok data')
  ∧ (answersb (accountDB busyPool) "alice" changedTypes = false
     ↔ ∃ err,
         appendAccountData gomatrixserverlib.SplitID busyPool incrementalSnapshot
           "@alice:hs1" longPoll 107 = Err err).
Proof.
  apply (incremental_merge_all_or_nothing gomatrixserverlib.SplitID
           busyPool incrementalSnapshot "@alice:hs1" longPoll 107
           "alice" "hs1" changedTypes).
  - discriminate.
  - reflexivity.
  - reflexivity.
Defined.

(** An accounts store that is down. *)
Definition brokenAccounts : AccountsDatabase (ClientEvent := string) :=
  {| GetAccountData := λ _, Err (errors_New "sql: database is closed");
     GetAccountDataByType := λ _ _ _, Err (errors_New "sql: database is closed") |}.

Lemma incremental_nothing_changed_witness :
  appendAccountData gomatrixserverlib.SplitID
    {| db := db quietPool; accountDB := brokenAccounts |}
    incrementalSnapshot "@alice:hs1" longPoll 107
  = Ok incrementalSnapshot.
Proof.
  apply (incremental_nothing_changed gomatrixserverlib.SplitID
           quietPool incrementalSnapshot "@alice:hs1" longPoll 107 "alice" "hs1").
  - discriminate.
  - reflexivity.
  - reflexivity.
Defined.

(** With one failing fetch among three rooms, nothing comes back; with
    nothing listed, a store that is down does no harm. *)
Example one_failing_fetch_fails_the_merge :
  appendAccountData gomatrixserverlib.SplitID
    {| db := syncStore changedTypes;
       accountDB :=
         {| GetAccountData := GetAccountData accountStore;
            GetAccountDataByType := λ localpart roomID dataType,
              if bool_decide (dataType = "m.fully_read")
              then Err (errors_New "sql: connection reset")
              else GetAccountDataByType accountStore localpart roomID dataType |} |}
    incrementalSnapshot "@alice:hs1" longPoll 107
  = Err (errors_New "sql: connection reset")
  ∧ appendAccountData gomatrixserverlib.SplitID
      {| db := syncStore []; accountDB := brokenAccounts |}
      incrementalSnapshot "@alice:hs1" longPoll 107
    = Ok incrementalSnapshot.
Proof. by vm_compute. Qed.

(** A snapshot of two joined rooms, of which the accounts store holds
    account data for [!a:hs1] only. *)
Definition twoRooms : Response string :=
  {| NextBatch := 100; AccountData := [];
     Rooms_Join := {[ "!a:hs1" := roomA;
                      "!c:hs1" := {| State_Events := ["create"];
                                     Timeline_Events := [];
                                     AccountData_Events := ["kept"] |} ]};
     Rooms_Invite := ∅; Rooms_Leave := ∅ |}.

Lemma initial_merge_fills_joined_rooms_witness :
  ∃ data',
    appendAccountData gomatrixserverlib.SplitID quietPool twoRooms
      "@alice:hs1" initialSync 100 = Ok data'
    ∧ AccountData data' = ["rules v2"]
    ∧ (∀ roomID,
         Rooms_Join data' !! roomID
         = (λ j, if bool_decide
                      (default [] (({[ "!a:hs1" := ["tag v2"] ]}
                                      : gmap string (list string)) !! roomID) ≠ [])
                 then setJoinAccountData j
                        (default [] (({[ "!a:hs1" := ["tag v2"] ]}
                                        : gmap string (list string)) !! roomID))
                 else j) <$> Rooms_Join twoRooms !! roomID)
    ∧ dom (Rooms_Join data') = dom (Rooms_Join twoRooms).
Proof.
  apply (initial_merge_fills_joined_rooms gomatrixserverlib.SplitID
           quietPool twoRooms "@alice:hs1" initialSync 100 "alice" "hs1"
           ["rules v2"] {[ "!a:hs1" := ["tag v2"] ]}).
  - reflexivity.
  - reflexivity.
  - reflexivity.
Defined.

Lemma initial_sync_ignores_position_witness :
  currentSyncForUser gomatrixserverlib.SplitID quietPool initialSync 100
  = currentSyncForUser gomatrixserverlib.SplitID quietPool initialSync 250.
Proof.
  apply (initial_sync_ignores_position gomatrixserverlib.SplitID
           quietPool initialSync 100 250).
  reflexivity.
Defined.

(** The snapshot the wake at 102 finds. *)
Definition wokenSnapshot : Response string :=
  match currentSyncForUser gomatrixserverlib.SplitID busyPool longPoll 102 with
  | Ok syncData => syncData
  | Err _ => NewResponse 0
  end.

Lemma long_poll_never_sends_empty_snapshot_witness :
  respond 200 wokenSnapshot = respond 200 (NewResponse (since longPoll))
  ∨ (∃ syncData,
       respond 200 wokenSnapshot = respond 200 syncData
       ∧ IsEmpty syncData = false)
  ∨ (∃ err, respond 200 wokenSnapshot = LogThenError err).
Proof.
  apply (long_poll_never_sends_empty_snapshot parsed gomatrixserverlib.SplitID
           quietPool longPoll alice 100 wakeWithData longPoll
           (respond 200 wokenSnapshot)).
  - reflexivity.
  - discriminate.
  - discriminate.
  - vm_compute. reflexivity.
Defined.

(** A parser that rejects the query parameters. *)
Definition rejected (req : syncRequest) (uid : string) : result syncRequest :=
  Err (errors_New "strconv.ParseInt: parsing since: invalid syntax").

Lemma sync_response_codes_witness :
  (400 = 200 ∨ 400 = 400 ∨ 400 = 500)
  ∧ (400 = 400 ↔ ∃ err, rejected longPoll (UserID alice) = Err err)
  ∧ (400 = 400 →
       trace (OnIncomingSyncRequest rejected gomatrixserverlib.SplitID
                quietPool longPoll alice 100 [TimerC]) = []).
Proof.
  apply (sync_response_codes rejected gomatrixserverlib.SplitID
           quietPool longPoll alice 100 [TimerC]
           {| Code := 400;
              JSON := json_error (Unknown
                "strconv.ParseInt: parsing since: invalid syntax") |}).
  reflexivity.
Defined.

Lemma cancellation_ends_wait_witness :
  OnIncomingSyncRequest parsed gomatrixserverlib.SplitID quietPool longPoll
    alice 100
    ([Notified 101 quietPool] ++ ContextDone (errors_New "context canceled")
       :: [Notified 102 busyPool])
  = mkRun (NewTimer (timeout longPoll) :: GetListener longPoll
             :: channelsAsked 100 [Notified 101 quietPool]
             ++ [GetNotifyChannel (posAfter 100 [Notified 101 quietPool]);
                 ListenerClose; TimerStop])
          (Some (LogThenError (errors_New "context canceled"))).
Proof.
  apply (cancellation_ends_wait parsed gomatrixserverlib.SplitID quietPool
           longPoll alice 100 [Notified 101 quietPool]
           (errors_New "context canceled") [Notified 102 busyPool] longPoll).
  - reflexivity.
  - discriminate.
  - discriminate.
  - vm_compute. reflexivity.
Defined.

(** A stored state event: its client form is its content. *)
Record StoredEvent : Type := mkStoredEvent {
  stored_content : string;
  stored_unsigned : string
}.

(** A decoder that knows two unsigned parts. *)
Definition decodeUnsigned (unsigned : string) : result PrevEventRef :=
  if bool_decide (unsigned = "{replaces_state: $old, prev_content: {topic: a}}")
  then Ok {| PrevContent := Some "{topic: a}"; ReplacesState := "$old" |}
  else if bool_decide (unsigned = "{age: 12}")
  then Ok zeroPrevEventRef
  else Err (errors_New "invalid character in unsigned").

Definition roomState : list StoredEvent :=
  [ {| stored_content := "{creator: @alice:hs1}"; stored_unsigned := EmptyString |};
    {| stored_content := "{topic: b}";
       stored_unsigned := "{replaces_state: $old, prev_content: {topic: a}}" |};
    {| stored_content := "{name: room}"; stored_unsigned := "{age: 12}" |} ].

Definition stateStore (stateEvents : list StoredEvent) : StateDatabase :=
  {| GetStateEventsForRoom := λ _, Ok stateEvents;
     GetStateEvent := λ _ _ _, Ok (head stateEvents) |}.

Lemma state_request_lists_every_event_witness :
  OnIncomingStateRequest stored_unsigned stored_content decodeUnsigned
    (stateStore roomState) "!a:hs1"
  = {| Code := 200;
       JSON := json_value
                 (stateEventOf stored_unsigned stored_content decodeUnsigned
                    <$> roomState) |}.
Proof.
  apply (state_request_lists_every_event stored_unsigned stored_content
           decodeUnsigned (stateStore roomState) "!a:hs1" roomState).
  - reflexivity.
  - vm_compute. reflexivity.
Defined.

(** The three entries, and the same room with one more event whose
    unsigned part does not decode. *)
Example state_request_on_room :
  OnIncomingStateRequest stored_unsigned stored_content decodeUnsigned
    (stateStore roomState) "!a:hs1"
  = {| Code := 200;
       JSON := json_value
         [ {| RespClientEvent := "{creator: @alice:hs1}";
              RespPrevContent := None; RespReplacesState := EmptyString |};
           {| RespClientEvent := "{topic: b}";
              RespPrevContent := Some "{topic: a}";
              RespReplacesState := "$old" |};
           {| RespClientEvent := "{name: room}";
              RespPrevContent := None; RespReplacesState := EmptyString |} ] |}
  ∧ OnIncomingStateRequest stored_unsigned stored_content decodeUnsigned
      (stateStore (roomState ++ [ {| stored_content := "{}";
                                     stored_unsigned := "{age" |} ]))
      "!a:hs1"
    = {| Code := 500; JSON := json_error InternalServerError |}
  ∧ OnIncomingStateRequest stored_unsigned stored_content decodeUnsigned
      (stateStore []) "!a:hs1"
    = {| Code := 200; JSON := json_value [] |}
  ∧ OnIncomingStateTypeRequest (ClientEvent := string) stored_content id
      (stateStore []) "!a:hs1" "m.room.topic" EmptyString
    = {| Code := 404; JSON := json_error (NotFound "cannot find state") |}.
Proof. by vm_compute. Qed.

End sync.

(** ** Package [routing]: the federation join handlers *)

Module routing.

Definition ServerName : Type := string.

(** [gomatrixserverlib.FederationRequest]: the signed request of a peer,
    through [Content()] and [Origin()]. *)
Record FederationRequest : Type := mkFederationRequest {
  RequestContent : string;
  RequestOrigin : ServerName
}.

(** [config.Dendrite], of which the handlers read [Matrix.ServerName]. *)
Record Dendrite : Type := mkDendrite {
  Matrix_ServerName : ServerName
}.

Record EventBuilder : Type := mkEventBuilder {
  Sender : string;
  BuilderRoomID : string;
  Type_ : string;
  StateKey : option string;
  Content : list (string * string)
}.

Record VerifyJSONRequest : Type := mkVerifyJSONRequest {
  VerifyServerName : ServerName;
  Message : string;
  AtTS : Z
}.

(** [VerifyJSONResult.Error]: [nil] when the signature verified. *)
Record VerifyJSONResult : Type := mkVerifyJSONResult {
  VerifyError : option error
}.

Record QueryStateAndAuthChainRequest : Type := mkQueryStateAndAuthChainRequest {
  QueryPrevEventIDs : list string;
  QueryRoomID : string
}.

(** The part of gomatrixserverlib the handlers use on events: the JSON
    decoder and the accessors of [Event]. *)
Class EventLib (Event : Type) : Type := {
  Unmarshal : string → result Event;
  RoomID : Event → string;
  EventID : Event → string;
  Origin : Event → ServerName;
  OriginServerTS : Event → Z;
  PrevEventIDs : Event → list string;
  Redact : Event → Event;
  EventJSON : Event → string;
  SetContent : EventBuilder → list (string * string) → result EventBuilder;
  Allowed : Event → list Event → option error
}.

Section Join.
Context {Event : Type} `{EventLib Event}.

Record QueryStateAndAuthChainResponse : Type := mkQueryStateAndAuthChainResponse {
  StateEvents : list Event;
  AuthChainEvents : list Event
}.

Record QueryLatestEventsAndStateResponse : Type :=
  mkQueryLatestEventsAndStateResponse {
  LatestStateEvents : list Event
}.

(** [gomatrixserverlib.KeyRing]. *)
Record KeyRing : Type := mkKeyRing {
  VerifyJSONs : list VerifyJSONRequest → result (list VerifyJSONResult)
}.

(** [api.RoomserverQueryAPI], with [common.BuildEvent] (common/events.go,
    outside the source at hand), which builds an event on top of the
    latest events and state it asks the roomserver for. *)
Record RoomserverQueryAPI : Type := mkRoomserverQueryAPI {
  QueryStateAndAuthChain :
    QueryStateAndAuthChainRequest → result QueryStateAndAuthChainResponse;
  BuildEvent :
    EventBuilder → Dendrite → result (Event * QueryLatestEventsAndStateResponse)
}.

(** [producers.RoomserverProducer]: [SendEvents] writes the events to the
    roomserver's input log and returns [nil] on success. *)
Record RoomserverProducer : Type := mkRoomserverProducer {
  SendEvents : list Event → ServerName → option error
}.

(** The calls a join handler makes to its collaborators. *)
Inductive Call : Type :=
| CallBuildEvent (builder : EventBuilder)
| CallVerifyJSONs (requests : list VerifyJSONRequest)
| CallQueryStateAndAuthChain (request : QueryStateAndAuthChainRequest)
| CallSendEvents (events : list Event) (server : ServerName).

Definition isCallSendEvents (c : Call) : bool :=
  match c with CallSendEvents _ _ => true | _ => false end.

(** The 200 bodies: the proposed event of [MakeJoin], and the [state] and
    [auth_chain] lists of [SendJoin]. *)
Inductive JoinBody : Type :=
| ProposedEvent (event : Event)
| StateAndAuthChain (state auth_chain : list Event).

Definition reject (code : Z) (e : MatrixError) : JSONResponse JoinBody :=
  {| Code := code; JSON := json_error e |}.

Context (SplitID : ascii → string → result (string * ServerName)).

(** [MakeJoin].  The parameters [ctx], [httpReq], [now] and [keys] do not
    bear on what it returns.  The outcome is [Some] response in every case. *)
Definition MakeJoin (request : FederationRequest) (cfg : Dendrite)
    (query : RoomserverQueryAPI) (roomID userID : string)
  : Run Call (JSONResponse JoinBody) :=
  match SplitID "@"%char userID with
  | Err _ => mkRun [] (Some (reject 400 (BadJSON "Invalid UserID")))
  | Ok (_, domain) =>
      if bool_decide (domain ≠ RequestOrigin request) then
        mkRun [] (Some (reject 403
          (Forbidden "The join must be sent by the server of the user")))
      else
        let builder :=
          {| Sender := userID; BuilderRoomID := roomID;
             Type_ := "m.room.member"; StateKey := Some userID;
             Content := [] |} in
        match SetContent builder [("membership", "join")] with
        | Err err => mkRun [] (Some (LogThenError err))
        | Ok builder =>
            match BuildEvent query builder cfg with
            | Err ErrRoomNoExists =>
                mkRun [CallBuildEvent builder]
                      (Some (reject 404 (NotFound "Room does not exist")))
            | Err err =>
                mkRun [CallBuildEvent builder] (Some (LogThenError err))
            | Ok (event, queryRes) =>
                match Allowed event (LatestStateEvents queryRes) with
                | Some err =>
                    mkRun [CallBuildEvent builder]
                          (Some (reject 403 (Forbidden (Error err))))
                | None =>
                    mkRun [CallBuildEvent builder]
                          (Some {| Code := 200;
                                   JSON := json_value (ProposedEvent event) |})
                end
            end
        end
  end.

(** The one request [SendJoin] hands to the key ring. *)
Definition verifyRequest (event : Event) : VerifyJSONRequest :=
  {| VerifyServerName := Origin event;
     Message := EventJSON (Redact event);
     AtTS := OriginServerTS event |}.

(** [SendJoin].  The parameter [now] is not read.  The outcome is [None]
    when the handler panics: [verifyResults[0]] on an empty answer of the
    key ring. *)
Definition SendJoin (request : FederationRequest) (cfg : Dendrite)
    (query : RoomserverQueryAPI) (producer : RoomserverProducer)
    (keys : KeyRing) (roomID eventID : string)
  : Run Call (JSONResponse JoinBody) :=
  match Unmarshal (RequestContent request) with
  | Err err =>
      mkRun [] (Some (reject 400 (NotJSON
        ("The request body could not be decoded into valid JSON. " +:+ Error err))))
  | Ok event =>
      if bool_decide (RoomID event ≠ roomID) then
        mkRun [] (Some (reject 400 (BadJSON
          "The room ID in the request path must match the room ID in the join event JSON")))
      else if bool_decide (EventID event ≠ eventID) then
        mkRun [] (Some (reject 400 (BadJSON
          "The event ID in the request path must match the event ID in the join event JSON")))
      else if bool_decide (Origin event ≠ RequestOrigin request) then
        mkRun [] (Some (reject 403 (Forbidden
          "The join must be sent by the server it originated on")))
      else
        let verifyRequests := [verifyRequest event] in
        match VerifyJSONs keys verifyRequests with
        | Err err =>
            mkRun [CallVerifyJSONs verifyRequests] (Some (LogThenError err))
        | Ok verifyResults =>
            match verifyResults !! 0%nat with
            | None => mkRun [CallVerifyJSONs verifyRequests] None
            | Some verifyResult =>
                match VerifyError verifyResult with
                | Some _ =>
                    mkRun [CallVerifyJSONs verifyRequests]
                          (Some (reject 403 (Forbidden
                            "The join must be signed by the server it originated on")))
                | None =>
                    let stateRequest :=
                      {| QueryPrevEventIDs := PrevEventIDs event;
                         QueryRoomID := roomID |} in
                    match QueryStateAndAuthChain query stateRequest with
                    | Err err =>
                        mkRun [CallVerifyJSONs verifyRequests;
                               CallQueryStateAndAuthChain stateRequest]
                              (Some (LogThenError err))
                    | Ok stateAndAuthChainRepsonse =>
                        match SendEvents producer [event] (Matrix_ServerName cfg) with
                        | Some err =>
                            mkRun [CallVerifyJSONs verifyRequests;
                                   CallQueryStateAndAuthChain stateRequest;
                                   CallSendEvents [event] (Matrix_ServerName cfg)]
                                  (Some (LogThenError err))
                        | None =>
                            mkRun [CallVerifyJSONs verifyRequests;
                                   CallQueryStateAndAuthChain stateRequest;
                                   CallSendEvents [event] (Matrix_ServerName cfg)]
                                  (Some {| Code := 200;
                                           JSON := json_value (StateAndAuthChain
                                             (StateEvents stateAndAuthChainRepsonse)
                                             (AuthChainEvents stateAndAuthChainRepsonse)) |})
                        end
                    end
                end
            end
        end
  end.

(** *** The claims about the join handshake *)

(** The handler called the producer. *)
Definition committed (r : Run Call (JSONResponse JoinBody)) : bool :=
  existsb isCallSendEvents (trace r).

(** The key ring answered, and its answer for the one request carries no
    error. *)
Definition signatureVerified (keys : KeyRing) (event : Event) : bool :=
  match VerifyJSONs keys [verifyRequest event] with
  | Ok verifyResults =>
      match verifyResults !! 0%nat with
      | Some verifyResult => bool_decide (VerifyError verifyResult = None)
      | None => false
      end
  | Err _ => false
  end.

(** C1.  [SendJoin] calls the producer only when the key ring has verified
    the redacted event's JSON for the server named as the event's origin, at
    the event's [origin_server_ts]; what it sends is then that very event.
    When the verification fails, through an error of the key ring or an
    error in its result, the producer is not called and the response is an
    error (never 200). *)
Theorem commit_only_after_signature_check
    request cfg query producer keys roomID eventID :
  (committed (SendJoin request cfg query producer keys roomID eventID) = true →
     ∃ event verifyResults verifyResult,
       Unmarshal (RequestContent request) = Ok event
       ∧ VerifyJSONs keys
           [ {| VerifyServerName := Origin event;
                Message := EventJSON (Redact event);
                AtTS := OriginServerTS event |} ] = Ok verifyResults
       ∧ verifyResults !! 0%nat = Some verifyResult
       ∧ VerifyError verifyResult = None
       ∧ trace (SendJoin request cfg query producer keys roomID eventID)
         = [CallVerifyJSONs [verifyRequest event];
            CallQueryStateAndAuthChain
              {| QueryPrevEventIDs := PrevEventIDs event; QueryRoomID := roomID |};
            CallSendEvents [event] (Matrix_ServerName cfg)])
  ∧ (∀ event,
       Unmarshal (RequestContent request) = Ok event →
       ((∃ err, VerifyJSONs keys [verifyRequest event] = Err err)
        ∨ (∃ verifyResults verifyResult err,
             VerifyJSONs keys [verifyRequest event] = Ok verifyResults
             ∧ verifyResults !! 0%nat = Some verifyResult
             ∧ VerifyError verifyResult = Some err)) →
       committed (SendJoin request cfg query producer keys roomID eventID) = false
       ∧ ∃ resp,
           outcome (SendJoin request cfg query producer keys roomID eventID)
           = Some resp
           ∧ (Code resp = 400 ∨ Code resp = 403 ∨ Code resp = 500)).
Proof.
  split.
  - unfold committed, SendJoin, verifyRequest.
    destruct (Unmarshal (RequestContent request)) as [event|err]; [|done].
    repeat (case_bool_decide; [done|]).
    destruct (VerifyJSONs keys _) as [verifyResults|err] eqn:Hverify; [|done].
    destruct (verifyResults !! 0%nat) as [verifyResult|] eqn:Hfirst; [|done].
    destruct (VerifyError verifyResult) as [err|] eqn:Herr; [done|].
    destruct (QueryStateAndAuthChain query _) as [resp|err]; [|done].
    intros _. exists event, verifyResults, verifyResult.
    split_and!; try done.
    by destruct (SendEvents producer [event] (Matrix_ServerName cfg)).
  - intros event Hevent Hfails. unfold committed, SendJoin. rewrite Hevent.
    repeat (case_bool_decide; [simpl; split; [done|]; eexists; split; [done|];
                               simpl; tauto|]).
    destruct Hfails as [[err Hverify]|(verifyResults & verifyResult & err
                                       & Hverify & Hfirst & Herr)];
      rewrite Hverify; [|rewrite Hfirst, Herr];
      simpl; (split; [done|]); eexists; (split; [done|]); simpl; tauto.
Qed.

(** C3.  When the body decodes to an event whose room ID is not the path's
    room ID, or whose event ID is not the path's event ID, [SendJoin]
    answers 400 (bad JSON) without having called anyone: not the key ring,
    not the roomserver, not the producer.  Neither the origin of the event
    nor that of the request is looked at. *)
Theorem mismatched_path_ids_rejected
    request cfg query producer keys roomID eventID event :
  Unmarshal (RequestContent request) = Ok event →
  RoomID event ≠ roomID ∨ EventID event ≠ eventID →
  trace (SendJoin request cfg query producer keys roomID eventID) = []
  ∧ committed (SendJoin request cfg query producer keys roomID eventID) = false
  ∧ (∃ msg,
        outcome (SendJoin request cfg query producer keys roomID eventID)
        = Some (reject 400 (BadJSON msg)))
  ∧ (∀ origin keys' query' producer',
       SendJoin {| RequestContent := RequestContent request;
                   RequestOrigin := origin |} cfg query' producer' keys'
         roomID eventID
       = SendJoin request cfg query producer keys roomID eventID).
Proof.
  intros Hevent Hmismatch. unfold committed, SendJoin. simpl. rewrite Hevent.
  destruct (decide (RoomID event = roomID)) as [Hroom|Hroom].
  - destruct Hmismatch as [?|Hid]; [done|].
    rewrite (bool_decide_eq_false_2 (RoomID event ≠ roomID)); [|by intros []].
    rewrite (bool_decide_eq_true_2 (EventID event ≠ eventID)); [|done].
    simpl. split_and!; try done. by eexists.
  - rewrite (bool_decide_eq_true_2 (RoomID event ≠ roomID)); [|done].
    simpl. split_and!; try done. by eexists.
Qed.

(** C7.  When the domain of the user ID is not the origin of the request,
    [MakeJoin] answers 403 (forbidden) without having called anyone: no
    state is asked of the roomserver and no event is built. *)
Theorem foreign_user_join_forbidden
    request cfg query roomID userID localpart domain :
  SplitID "@"%char userID = Ok (localpart, domain) →
  domain ≠ RequestOrigin request →
  MakeJoin request cfg query roomID userID
  = mkRun [] (Some (reject 403
      (Forbidden "The join must be sent by the server of the user"))).
Proof.
  intros Hsplit Hforeign. unfold MakeJoin. rewrite Hsplit.
  by rewrite bool_decide_eq_true_2.
Qed.

(** *** Further properties of the join handlers *)

(** The three calls of a join that goes all the way, in their order. *)
Definition admissionCalls (cfg : Dendrite) (roomID : string) (event : Event)
  : list Call :=
  [CallVerifyJSONs [verifyRequest event];
   CallQueryStateAndAuthChain
     {| QueryPrevEventIDs := PrevEventIDs event; QueryRoomID := roomID |};
   CallSendEvents [event] (Matrix_ServerName cfg)].

(** X13.  Whatever the request, the calls [SendJoin] makes are an initial
    stretch of: verify the event, query the state and auth chain at the
    event's previous events, send the event.  So each call is made at most
    once, the roomserver is never queried before the key ring has been
    asked, the producer never before the roomserver has been queried, and
    what is sent is the one decoded event, under this server's name.  A body
    that does not decode leads to no call at all. *)
Theorem send_join_calls_in_order request cfg query producer keys roomID eventID :
  trace (SendJoin request cfg query producer keys roomID eventID)
  `prefix_of`
  match Unmarshal (RequestContent request) with
  | Ok event => admissionCalls cfg roomID event
  | Err _ => []
  end.
Proof.
  unfold SendJoin, admissionCalls.
  destruct (Unmarshal (RequestContent request)) as [event|err]; [|done].
  repeat (case_bool_decide; [by eexists|]).
  destruct (VerifyJSONs keys _) as [verifyResults|err]; [|by eexists].
  destruct (verifyResults !! 0%nat) as [verifyResult|]; [|by eexists].
  destruct (VerifyError verifyResult); [by eexists|].
  destruct (QueryStateAndAuthChain query _); [|by eexists].
  destruct (SendEvents producer [event] (Matrix_ServerName cfg)); by exists [].
Qed.

(** Every check of [SendJoin] passes and every collaborator answers:
    the decoded event, and the state and auth chain the roomserver
    returned. *)
Definition admits (request : FederationRequest) (cfg : Dendrite)
    (query : RoomserverQueryAPI) (producer : RoomserverProducer)
    (keys : KeyRing) (roomID eventID : string)
    (event : Event) (state : QueryStateAndAuthChainResponse) : Prop :=
  Unmarshal (RequestContent request) = Ok event
  ∧ RoomID event = roomID
  ∧ EventID event = eventID
  ∧ Origin event = RequestOrigin request
  ∧ signatureVerified keys event = true
  ∧ QueryStateAndAuthChain query
      {| QueryPrevEventIDs := PrevEventIDs event; QueryRoomID := roomID |}
    = Ok state
  ∧ SendEvents producer [event] (Matrix_ServerName cfg) = None.

(** X14.  [SendJoin] answers 200 exactly when the body decodes, the room
    and event IDs are the path's, the event's origin is the request's, the
    key ring verifies the event, the roomserver returns the state and auth
    chain, and the producer accepts the event; the body of the answer is
    then that state and auth chain. *)
Theorem send_join_accepts_iff
    request cfg query producer keys roomID eventID resp :
  (outcome (SendJoin request cfg query producer keys roomID eventID) = Some resp
   ∧ Code resp = 200)
  ↔ ∃ event state,
      admits request cfg query producer keys roomID eventID event state
      ∧ resp = {| Code := 200;
                  JSON := json_value (StateAndAuthChain (StateEvents state)
                                        (AuthChainEvents state)) |}.
Proof.
  unfold admits, signatureVerified, SendJoin. split.
  - destruct (Unmarshal (RequestContent request)) as [event|err];
      [|by intros [[= <-] ?]].
    repeat (case_bool_decide; [by intros [[= <-] ?]|]).
    destruct (VerifyJSONs keys _) as [verifyResults|err] eqn:Hkeys;
      [|by intros [[= <-] ?]].
    destruct (verifyResults !! 0%nat) as [verifyResult|] eqn:Hfirst;
      [|by intros [? ?]].
    destruct (VerifyError verifyResult) eqn:Hverify; [by intros [[= <-] ?]|].
    destruct (QueryStateAndAuthChain query _) as [state|err] eqn:Hquery;
      [|by intros [[= <-] ?]].
    destruct (SendEvents producer [event] (Matrix_ServerName cfg)) eqn:Hsend;
      [by intros [[= <-] ?]|].
    simpl. intros [[= <-] _]. exists event, state.
    rewrite Hkeys, Hfirst, Hverify.
    split_and!; try done; try by apply dec_stable.
  - intros (event & state & (Hdecode & Hroom & Hid & Horigin & Hverify
                             & Hquery & Hsend) & ->).
    rewrite Hdecode.
    rewrite (bool_decide_eq_false_2 (RoomID event ≠ roomID)); [|by intros []].
    rewrite (bool_decide_eq_false_2 (EventID event ≠ eventID)); [|by intros []].
    rewrite (bool_decide_eq_false_2 (Origin event ≠ RequestOrigin request));
      [|by intros []].
    destruct (VerifyJSONs keys [verifyRequest event]) as [verifyResults|err];
      [|done].
    destruct (verifyResults !! 0%nat) as [verifyResult|]; [|done].
    apply bool_decide_eq_true_1 in Hverify. rewrite Hverify, Hquery, Hsend.
    done.
Qed.

(** X15.  When every check passes and the roomserver returns the state but
    the producer fails to take the event, [SendJoin] answers with the logged
    error, not with the state: the event was handed to the producer, and
    the peer is not told it was accepted. *)
Theorem send_join_commit_failure_is_error
    request cfg query producer keys roomID eventID event state err :
  Unmarshal (RequestContent request) = Ok event →
  RoomID event = roomID →
  EventID event = eventID →
  Origin event = RequestOrigin request →
  signatureVerified keys event = true →
  QueryStateAndAuthChain query
    {| QueryPrevEventIDs := PrevEventIDs event; QueryRoomID := roomID |}
  = Ok state →
  SendEvents producer [event] (Matrix_ServerName cfg) = Some err →
  SendJoin request cfg query producer keys roomID eventID
  = mkRun (admissionCalls cfg roomID event) (Some (LogThenError err)).
Proof.
  intros Hdecode Hroom Hid Horigin Hverify Hquery Hsend.
  unfold signatureVerified in Hverify. unfold SendJoin, admissionCalls.
  rewrite Hdecode.
  rewrite (bool_decide_eq_false_2 (RoomID event ≠ roomID)); [|by intros []].
  rewrite (bool_decide_eq_false_2 (EventID event ≠ eventID)); [|by intros []].
  rewrite (bool_decide_eq_false_2 (Origin event ≠ RequestOrigin request));
    [|by intros []].
  destruct (VerifyJSONs keys [verifyRequest event]) as [verifyResults|?];
    [|done].
  destruct (verifyResults !! 0%nat) as [verifyResult|]; [|done].
  apply bool_decide_eq_true_1 in Hverify. by rewrite Hverify, Hquery, Hsend.
Qed.

(** X16.  When the body decodes to an event with the path's room and
    event IDs but an origin that is not the request's, [SendJoin] answers
    403 without asking the key ring or anyone else: a server cannot submit
    an event that names another server as its origin, however well
    signed. *)
Theorem send_join_foreign_origin_forbidden
    request cfg query producer keys roomID eventID event :
  Unmarshal (RequestContent request) = Ok event →
  RoomID event = roomID →
  EventID event = eventID →
  Origin event ≠ RequestOrigin request →
  SendJoin request cfg query producer keys roomID eventID
  = mkRun [] (Some (reject 403
      (Forbidden "The join must be sent by the server it originated on"))).
Proof.
  intros Hdecode Hroom Hid Horigin. unfold SendJoin. rewrite Hdecode.
  rewrite (bool_decide_eq_false_2 (RoomID event ≠ roomID)); [|by intros []].
  rewrite (bool_decide_eq_false_2 (EventID event ≠ eventID)); [|by intros []].
  by rewrite (bool_decide_eq_true_2 (Origin event ≠ RequestOrigin request)).
Qed.

(** X17.  [SendJoin] fails to return (it indexes [verifyResults[0]] out
    of range) exactly when the body decodes, the IDs and the origin match,
    and the key ring answers without error and without any result.  In
    every other case it returns a response.  When it fails this way it has
    asked the key ring and no one else: nothing is sent. *)
Theorem send_join_panics_iff_no_verify_result
    request cfg query producer keys roomID eventID :
  (outcome (SendJoin request cfg query producer keys roomID eventID) = None
   ↔ ∃ event,
       Unmarshal (RequestContent request) = Ok event
       ∧ RoomID event = roomID
       ∧ EventID event = eventID
       ∧ Origin event = RequestOrigin request
       ∧ VerifyJSONs keys [verifyRequest event] = Ok [])
  ∧ (outcome (SendJoin request cfg query producer keys roomID eventID) = None →
       committed (SendJoin request cfg query producer keys roomID eventID)
       = false).
Proof.
  unfold committed, SendJoin. split.
  - split.
    + destruct (Unmarshal (RequestContent request)) as [event|err]; [|done].
      repeat (case_bool_decide; [done|]).
      destruct (VerifyJSONs keys _) as [verifyResults|err] eqn:Hverify;
        [|done].
      destruct verifyResults as [|verifyResult rest].
      * intros _. exists event. split_and!; try done; by apply dec_stable.
      * simpl. destruct (VerifyError verifyResult); [done|].
        destruct (QueryStateAndAuthChain query _); [|done].
        by destruct (SendEvents producer [event] (Matrix_ServerName cfg)).
    + intros (event & Hdecode & Hroom & Hid & Horigin & Hverify).
      rewrite Hdecode.
      rewrite (bool_decide_eq_false_2 (RoomID event ≠ roomID)); [|by intros []].
      rewrite (bool_decide_eq_false_2 (EventID event ≠ eventID));
        [|by intros []].
      rewrite (bool_decide_eq_false_2 (Origin event ≠ RequestOrigin request));
        [|by intros []].
      by rewrite Hverify.
  - destruct (Unmarshal (RequestContent request)) as [event|err]; [|done].
    repeat (case_bool_decide; [done|]).
    destruct (VerifyJSONs keys _) as [verifyResults|err]; [|done].
    destruct (verifyResults !! 0%nat) as [verifyResult|]; [|done].
    destruct (VerifyError verifyResult); [done|].
    destruct (QueryStateAndAuthChain query _); [|done].
    by destruct (SendEvents producer [event] (Matrix_ServerName cfg)).
Qed.

(** The builder [MakeJoin] starts from. *)
Definition joinBuilder (roomID userID : string) : EventBuilder :=
  {| Sender := userID; BuilderRoomID := roomID; Type_ := "m.room.member";
     StateKey := Some userID; Content := [] |}.

(** X18.  [MakeJoin] always returns a response, with status 200, 400, 403,
    404 or 500.  The status is 400 exactly when the user ID does not parse.
    The handler calls nothing but [BuildEvent], at most once: it verifies
    no signature and sends no event. *)
Theorem make_join_outcomes request cfg query roomID userID :
  ∃ resp,
    outcome (MakeJoin request cfg query roomID userID) = Some resp
    ∧ (Code resp = 200 ∨ Code resp = 400 ∨ Code resp = 403
       ∨ Code resp = 404 ∨ Code resp = 500)
    ∧ (Code resp = 400 ↔ ∃ err, SplitID "@"%char userID = Err err)
    ∧ (trace (MakeJoin request cfg query roomID userID) = []
       ∨ ∃ builder,
           SetContent (joinBuilder roomID userID) [("membership", "join")]
           = Ok builder
           ∧ trace (MakeJoin request cfg query roomID userID)
             = [CallBuildEvent builder]).
Proof.
  unfold MakeJoin, joinBuilder.
  destruct (SplitID "@"%char userID) as [[localpart domain]|err].
  - case_bool_decide.
    { eexists. split; [done|]. simpl. split_and!; try tauto.
      split; [done | by intros [? ?]]. }
    destruct (SetContent _ _) as [builder|err].
    + destruct (BuildEvent query builder cfg) as [[event queryRes]|[|msg]].
      * destruct (Allowed event (LatestStateEvents queryRes));
          (eexists; split; [done|]); simpl; split_and!; try tauto;
          try (split; [done | by intros [? ?]]); right; by eexists.
      * eexists. split; [done|]. simpl. split_and!; try tauto;
          try (split; [done | by intros [? ?]]). right. by eexists.
      * eexists. split; [done|]. simpl. split_and!; try tauto;
          try (split; [done | by intros [? ?]]). right. by eexists.
    + eexists. split; [done|]. simpl. split_and!; try tauto.
      split; [done | by intros [? ?]].
  - eexists. split; [done|]. simpl. split_and!; try tauto.
    split; [by eexists | done].
Qed.

(** X19.  [MakeJoin] answers 200 exactly when the user's domain is the
    request's origin, the membership content is set, [BuildEvent] builds
    the event and the authorization check lets it through; the body is
    then the event built from a builder whose sender and state key are the
    user ID, whose room is the path's and whose type is [m.room.member]. *)
Theorem make_join_proposes_iff request cfg query roomID userID resp :
  (outcome (MakeJoin request cfg query roomID userID) = Some resp
   ∧ Code resp = 200)
  ↔ ∃ localpart builder event queryRes,
      SplitID "@"%char userID = Ok (localpart, RequestOrigin request)
      ∧ SetContent (joinBuilder roomID userID) [("membership", "join")]
        = Ok builder
      ∧ BuildEvent query builder cfg = Ok (event, queryRes)
      ∧ Allowed event (LatestStateEvents queryRes) = None
      ∧ resp = {| Code := 200; JSON := json_value (ProposedEvent event) |}.
Proof.
  unfold MakeJoin, joinBuilder. split.
  - destruct (SplitID "@"%char userID) as [[localpart domain]|err];
      [|by intros [[= <-] ?]].
    case_bool_decide as Hdomain; [by intros [[= <-] ?]|].
    subst domain.
    destruct (SetContent _ _) as [builder|err]; [|by intros [[= <-] ?]].
    destruct (BuildEvent query builder cfg) as [[event queryRes]|[|msg]]
      eqn:Hbuild; try by intros [[= <-] ?].
    destruct (Allowed event (LatestStateEvents queryRes)) eqn:Hallowed;
      [by intros [[= <-] ?]|].
    intros [[= <-] _]. by exists localpart, builder, event, queryRes.
  - intros (localpart & builder & event & queryRes
            & -> & -> & -> & -> & ->).
    rewrite bool_decide_eq_false_2; [done | by intros []].
Qed.

(** X20.  Once the authority check has passed and the content is set,
    the failures of [MakeJoin] are told apart: a [BuildEvent] that reports
    the room as missing gives 404, any other error of [BuildEvent] gives the
    logged error, and an event the authorization check rejects gives 403
    with the check's own message. *)
Theorem make_join_failures_told_apart
    request cfg query roomID userID localpart builder :
  SplitID "@"%char userID = Ok (localpart, RequestOrigin request) →
  SetContent (joinBuilder roomID userID) [("membership", "join")] = Ok builder →
  (BuildEvent query builder cfg = Err ErrRoomNoExists →
     outcome (MakeJoin request cfg query roomID userID)
     = Some (reject 404 (NotFound "Room does not exist")))
  ∧ (∀ msg, BuildEvent query builder cfg = Err (errors_New msg) →
       outcome (MakeJoin request cfg query roomID userID)
       = Some (LogThenError (errors_New msg)))
  ∧ (∀ event queryRes err,
       BuildEvent query builder cfg = Ok (event, queryRes) →
       Allowed event (LatestStateEvents queryRes) = Some err →
       outcome (MakeJoin request cfg query roomID userID)
       = Some (reject 403 (Forbidden (Error err)))).
Proof.
  intros Hsplit Hcontent. unfold MakeJoin. fold (joinBuilder roomID userID).
  rewrite Hsplit, Hcontent.
  rewrite bool_decide_eq_false_2; [|by intros []].
  split_and!.
  - by intros ->.
  - by intros msg ->.
  - by intros event queryRes err -> ->.
Qed.

End Join.

(** *** The handlers on concrete requests *)

(** A signed event, as far as the handlers look into it. *)
Record SignedEvent : Type := mkSignedEvent {
  room_id : string;
  event_id : string;
  origin : ServerName;
  origin_server_ts : Z;
  prev_events : list string;
  content : string;
  signature : string
}.

Definition bobJoins : SignedEvent :=
  {| room_id := "!R:hs1"; event_id := "$E:hs2"; origin := "hs2";
     origin_server_ts := 1500000000000; prev_events := ["$D:hs1"];
     content := "membership=join"; signature := "hs2-ed25519-good" |}.

Definition bobJoinsForged : SignedEvent :=
  {| room_id := "!R:hs1"; event_id := "$E:hs2"; origin := "hs2";
     origin_server_ts := 1500000000000; prev_events := ["$D:hs1"];
     content := "membership=join"; signature := "hs2-ed25519-gooe" |}.

(** A decoder that knows two bodies, redaction that strips the content, and
    an authorization check that lets every event through. *)
#[local] Instance demoLib : EventLib SignedEvent := {
  Unmarshal body :=
    if bool_decide (body = "bob joins") then Ok bobJoins
    else if bool_decide (body = "bob joins, forged") then Ok bobJoinsForged
    else Err (errors_New "unexpected end of JSON input");
  RoomID := room_id;
  EventID := event_id;
  Origin := origin;
  OriginServerTS := origin_server_ts;
  PrevEventIDs := prev_events;
  Redact e :=
    {| room_id := room_id e; event_id := event_id e; origin := origin e;
       origin_server_ts := origin_server_ts e; prev_events := prev_events e;
       content := EmptyString; signature := signature e |};
  EventJSON e := (event_id e +:+ " signed " +:+ signature e)%string;
  SetContent builder c :=
    Ok {| Sender := Sender builder; BuilderRoomID := BuilderRoomID builder;
          Type_ := Type_ builder; StateKey := StateKey builder; Content := c |};
  Allowed _ _ := None
}.

(** A key ring that accepts the one good signature of [hs2]. *)
Definition demoKeys : KeyRing :=
  {| VerifyJSONs := λ requests,
       Ok ((λ r, {| VerifyError :=
                      if bool_decide (VerifyServerName r = "hs2"
                                      ∧ Message r = "$E:hs2 signed hs2-ed25519-good")
                      then None
                      else Some (errors_New "bad signature") |}) <$> requests) |}.

Definition demoQuery : RoomserverQueryAPI (Event := SignedEvent) :=
  {| QueryStateAndAuthChain := λ _,
       Ok {| StateEvents := []; AuthChainEvents := [] |};
     BuildEvent := λ _ _, Err ErrRoomNoExists |}.

Definition demoProducer : RoomserverProducer (Event := SignedEvent) :=
  {| SendEvents := λ _ _, None |}.

Definition hs1 : Dendrite := {| Matrix_ServerName := "hs1" |}.

(** The good join is committed; the same join with one byte of the
    signature changed is answered 403 and nothing is sent. *)
Example signed_join_committed_forged_join_refused :
  trace (SendJoin {| RequestContent := "bob joins"; RequestOrigin := "hs2" |}
           hs1 demoQuery demoProducer demoKeys "!R:hs1" "$E:hs2")
  = [CallVerifyJSONs [verifyRequest bobJoins];
     CallQueryStateAndAuthChain
       {| QueryPrevEventIDs := ["$D:hs1"]; QueryRoomID := "!R:hs1" |};
     CallSendEvents [bobJoins] "hs1"]
  ∧ Code <$> outcome (SendJoin {| RequestContent := "bob joins";
                                   RequestOrigin := "hs2" |}
                        hs1 demoQuery demoProducer demoKeys "!R:hs1" "$E:hs2")
    = Some 200
  ∧ SendJoin {| RequestContent := "bob joins, forged"; RequestOrigin := "hs2" |}
      hs1 demoQuery demoProducer demoKeys "!R:hs1" "$E:hs2"
    = mkRun [CallVerifyJSONs [verifyRequest bobJoinsForged]]
        (Some (reject 403 (Forbidden
           "The join must be signed by the server it originated on"))).
Proof. by vm_compute. Qed.

Lemma commit_only_after_signature_check_witness :
  (∃ event verifyResults verifyResult,
     Unmarshal "bob joins" = Ok event
     ∧ VerifyJSONs demoKeys
         [ {| VerifyServerName := Origin event;
              Message := EventJSON (Redact event);
              AtTS := OriginServerTS event |} ] = Ok verifyResults
     ∧ verifyResults !! 0%nat = Some verifyResult
     ∧ VerifyError verifyResult = None
     ∧ trace (SendJoin {| RequestContent := "bob joins"; RequestOrigin := "hs2" |}
                hs1 demoQuery demoProducer demoKeys "!R:hs1" "$E:hs2")
       = [CallVerifyJSONs [verifyRequest event];
          CallQueryStateAndAuthChain
            {| QueryPrevEventIDs := PrevEventIDs event; QueryRoomID := "!R:hs1" |};
          CallSendEvents [event] (Matrix_ServerName hs1)])
  ∧ (committed (SendJoin {| RequestContent := "bob joins, forged";
                            RequestOrigin := "hs2" |}
                  hs1 demoQuery demoProducer demoKeys "!R:hs1" "$E:hs2") = false
     ∧ ∃ resp,
         outcome (SendJoin {| RequestContent := "bob joins, forged";
                              RequestOrigin := "hs2" |}
                    hs1 demoQuery demoProducer demoKeys "!R:hs1" "$E:hs2")
         = Some resp
         ∧ (Code resp = 400 ∨ Code resp = 403 ∨ Code resp = 500)).
Proof.
  split.
  - apply (proj1 (commit_only_after_signature_check
                    {| RequestContent := "bob joins"; RequestOrigin := "hs2" |}
                    hs1 demoQuery demoProducer demoKeys "!R:hs1" "$E:hs2")).
    reflexivity.
  - apply (proj2 (commit_only_after_signature_check
                    {| RequestContent := "bob joins, forged"; RequestOrigin := "hs2" |}
                    hs1 demoQuery demoProducer demoKeys "!R:hs1" "$E:hs2")
             bobJoinsForged).
    + reflexivity.
    + right.
      exists [ {| VerifyError := Some (errors_New "bad signature") |} ],
             {| VerifyError := Some (errors_New "bad signature") |},
             (errors_New "bad signature").
      split_and!; reflexivity.
Defined.

(** The body names room [!R:hs1], the path names [!S:hs1]. *)
Lemma mismatched_path_ids_rejected_witness :
  trace (SendJoin {| RequestContent := "bob joins"; RequestOrigin := "hs2" |}
           hs1 demoQuery demoProducer demoKeys "!S:hs1" "$E:hs2") = []
  ∧ committed (SendJoin {| RequestContent := "bob joins"; RequestOrigin := "hs2" |}
                 hs1 demoQuery demoProducer demoKeys "!S:hs1" "$E:hs2") = false
  ∧ (∃ msg,
        outcome (SendJoin {| RequestContent := "bob joins"; RequestOrigin := "hs2" |}
                   hs1 demoQuery demoProducer demoKeys "!S:hs1" "$E:hs2")
        = Some (reject 400 (BadJSON msg)))
  ∧ (∀ origin keys' query' producer',
       SendJoin {| RequestContent := "bob joins"; RequestOrigin := origin |}
         hs1 query' producer' keys' "!S:hs1" "$E:hs2"
       = SendJoin {| RequestContent := "bob joins"; RequestOrigin := "hs2" |}
           hs1 demoQuery demoProducer demoKeys "!S:hs1" "$E:hs2").
Proof.
  apply (mismatched_path_ids_rejected
           {| RequestContent := "bob joins"; RequestOrigin := "hs2" |}
           hs1 demoQuery demoProducer demoKeys "!S:hs1" "$E:hs2" bobJoins).
  - reflexivity.
  - left. discriminate.
Defined.

(** [hs2] proposes a join for a user of [hs3]. *)
Lemma foreign_user_join_forbidden_witness :
  MakeJoin gomatrixserverlib.SplitID
    {| RequestContent := EmptyString; RequestOrigin := "hs2" |}
    hs1 demoQuery "!R:hs1" "@carol:hs3"
  = mkRun [] (Some (reject 403
      (Forbidden "The join must be sent by the server of the user"))).
Proof.
  apply (foreign_user_join_forbidden gomatrixserverlib.SplitID
           {| RequestContent := EmptyString; RequestOrigin := "hs2" |}
           hs1 demoQuery "!R:hs1" "@carol:hs3" "carol" "hs3").
  - reflexivity.
  - discriminate.
Defined.

(** *** The further properties on concrete requests *)

(** A producer whose log is not reachable. *)
Definition downProducer : RoomserverProducer (Event := SignedEvent) :=
  {| SendEvents := λ _ _, Some (errors_New "kafka: broker not available") |}.

Lemma send_join_commit_failure_is_error_witness :
  SendJoin {| RequestContent := "bob joins"; RequestOrigin := "hs2" |}
    hs1 demoQuery downProducer demoKeys "!R:hs1" "$E:hs2"
  = mkRun (admissionCalls hs1 "!R:hs1" bobJoins)
      (Some (LogThenError (errors_New "kafka: broker not available"))).
Proof.
  apply (send_join_commit_failure_is_error
           {| RequestContent := "bob joins"; RequestOrigin := "hs2" |}
           hs1 demoQuery downProducer demoKeys "!R:hs1" "$E:hs2" bobJoins
           {| StateEvents := []; AuthChainEvents := [] |}
           (errors_New "kafka: broker not available")).
  - reflexivity.
  - reflexivity.
  - reflexivity.
  - reflexivity.
  - vm_compute. reflexivity.
  - reflexivity.
  - reflexivity.
Defined.

(** [hs3] submits the join that [hs2] signed. *)
Lemma send_join_foreign_origin_forbidden_witness :
  SendJoin {| RequestContent := "bob joins"; RequestOrigin := "hs3" |}
    hs1 demoQuery demoProducer demoKeys "!R:hs1" "$E:hs2"
  = mkRun [] (Some (reject 403
      (Forbidden "The join must be sent by the server it originated on"))).
Proof.
  apply (send_join_foreign_origin_forbidden
           {| RequestContent := "bob joins"; RequestOrigin := "hs3" |}
           hs1 demoQuery demoProducer demoKeys "!R:hs1" "$E:hs2" bobJoins).
  - reflexivity.
  - reflexivity.
  - reflexivity.
  - discriminate.
Defined.

(** A key ring that answers with no result at all. *)
Example send_join_on_silent_key_ring :
  SendJoin {| RequestContent := "bob joins"; RequestOrigin := "hs2" |}
    hs1 demoQuery demoProducer {| VerifyJSONs := λ _, Ok [] |} "!R:hs1" "$E:hs2"
  = mkRun [CallVerifyJSONs [verifyRequest bobJoins]] None.
Proof. by vm_compute. Qed.

(** The builder of [bob]'s join once its content is set. *)
Definition bobBuilder : EventBuilder :=
  {| Sender := "@bob:hs2"; BuilderRoomID := "!R:hs1"; Type_ := "m.room.member";
     StateKey := Some "@bob:hs2"; Content := [("membership", "join")] |}.

Lemma make_join_failures_told_apart_witness :
  (BuildEvent demoQuery bobBuilder hs1 = Err ErrRoomNoExists →
     outcome (MakeJoin gomatrixserverlib.SplitID
                {| RequestContent := EmptyString; RequestOrigin := "hs2" |}
                hs1 demoQuery "!R:hs1" "@bob:hs2")
     = Some (reject 404 (NotFound "Room does not exist")))
  ∧ (∀ msg, BuildEvent demoQuery bobBuilder hs1 = Err (errors_New msg) →
       outcome (MakeJoin gomatrixserverlib.SplitID
                  {| RequestContent := EmptyString; RequestOrigin := "hs2" |}
                  hs1 demoQuery "!R:hs1" "@bob:hs2")
       = Some (LogThenError (errors_New msg)))
  ∧ (∀ event queryRes err,
       BuildEvent demoQuery bobBuilder hs1 = Ok (event, queryRes) →
       Allowed event (LatestStateEvents queryRes) = Some err →
       outcome (MakeJoin gomatrixserverlib.SplitID
                  {| RequestContent := EmptyString; RequestOrigin := "hs2" |}
                  hs1 demoQuery "!R:hs1" "@bob:hs2")
       = Some (reject 403 (Forbidden (Error err)))).
Proof.
  apply (make_join_failures_told_apart gomatrixserverlib.SplitID
           {| RequestContent := EmptyString; RequestOrigin := "hs2" |}
           hs1 demoQuery "!R:hs1" "@bob:hs2" "bob" bobBuilder).
  - reflexivity.
  - reflexivity.
Defined.

(** A roomserver that knows the room, and the proposal it yields; the
    roomserver that does not know it yields 404. *)
Example make_join_proposal_and_missing_room :
  MakeJoin gomatrixserverlib.SplitID
    {| RequestContent := EmptyString; RequestOrigin := "hs2" |} hs1
    {| QueryStateAndAuthChain := QueryStateAndAuthChain demoQuery;
       BuildEvent := λ _ _, Ok (bobJoins, {| LatestStateEvents := [] |}) |}
    "!R:hs1" "@bob:hs2"
  = mkRun [CallBuildEvent bobBuilder]
      (Some {| Code := 200; JSON := json_value (ProposedEvent bobJoins) |})
  ∧ MakeJoin gomatrixserverlib.SplitID
      {| RequestContent := EmptyString; RequestOrigin := "hs2" |}
      hs1 demoQuery "!R:hs1" "@bob:hs2"
    = mkRun [CallBuildEvent bobBuilder]
        (Some (reject 404 (NotFound "Room does not exist")))
  ∧ MakeJoin gomatrixserverlib.SplitID
      {| RequestContent := EmptyString; RequestOrigin := "hs2" |}
      hs1 demoQuery "!R:hs1" "bob"
    = mkRun [] (Some (reject 400 (BadJSON "Invalid UserID"))).
Proof. by vm_compute. Qed.

End routing.
